(** * mblock.c: write-once, append-only block objects of an mpool

    A shallow embedding of [src/mblock.c] (mpool kernel module) and the
    properties of its lifecycle and transfer paths.

    The file follows the C source function by function.  Object records
    ([struct pmd_layout]) live in a store indexed by address; an opaque
    handle ([struct mblock_descriptor *]) is either NULL or an address.
    The object directory ([pmd_*]) and the device layer ([pd_*]) are not
    part of [mblock.c]: they are the operations of the class [Pmd], and
    every call this file makes to them is appended to a call log, so that
    "is issued", "is never attempted" and "before" are statements about
    that log.  The kernel-log macros append to a second log.

    Integers are [Z] with the C conversions written out ([to_u32],
    [to_u64]).  [ev(e)] only counts an event and yields [e], so it does
    not appear.  [assert(e)] stops the call when [e] is false, as does a
    division by zero or an access through a pointer to no object: these
    are the [Trap] outcomes.  A pointer that a function tests ([mbh],
    [prop], [mp] in the allocation path and in [mblock_read]) is an
    [option]; a pool pointer that a function uses without testing it is
    a pool. *)

From Stdlib Require Import ZArith Lia List.
From stdpp Require Import base option gmap strings.

#[local] Open Scope Z_scope.

(** ** Machine integers *)

Abbreviation u8 := Z (only parsing).
Abbreviation u32 := Z (only parsing).
Abbreviation u64 := Z (only parsing).
Abbreviation s64 := Z (only parsing).
Abbreviation c_int := Z (only parsing).

Definition to_u8 (z : Z) : u8 := z mod 2 ^ 8.
Definition to_u32 (z : Z) : u32 := z mod 2 ^ 32.
Definition to_u64 (z : Z) : u64 := z mod 2 ^ 64.

Definition is_u32 (z : Z) : Prop := 0 <= z < 2 ^ 32.
Definition is_u64 (z : Z) : Prop := 0 <= z < 2 ^ 64.
Definition is_s64 (z : Z) : Prop := - 2 ^ 63 <= z < 2 ^ 63.
Definition is_int (z : Z) : Prop := - 2 ^ 31 <= z < 2 ^ 31.

(** Modelled from the spec: [PAGE_SHIFT], [PAGE_SIZE] and [PAGE_ALIGNED]
    are kernel macros that the sources use and do not define.  The
    specification speaks of "the host's minimum I/O alignment unit
    (typically the virtual-memory page size)"; it is taken as 4 KiB, the
    page of x86-64. *)
Definition PAGE_SHIFT : Z := 12.
Definition PAGE_SIZE : Z := Z.shiftl 1 PAGE_SHIFT.

(** [PAGE_ALIGNED(addr)] is [IS_ALIGNED((unsigned long)(addr), PAGE_SIZE)]:
    the low bits of the value converted to unsigned long are zero. *)
Definition PAGE_ALIGNED (addr : Z) : bool :=
  Z.land (to_u64 addr) (PAGE_SIZE - 1) =? 0.

(** ** Error values *)

(** Modelled from the spec: [merr_t], [merr()], [merr_errno()] and the
    errno constants are declared in headers that are not among the
    sources.  The specification has errors as values, one kind per
    errno.  [merr_t] is a 64-bit integer, zero on success; the real
    [merr()] also packs the file and line of the call site beside the
    errno, and only the errno is kept here, which is what [merr_errno()]
    reads back.  The numbers are those of Linux ([EBUG] is mpool's own);
    nothing below depends on them beyond their being distinct and not
    zero. *)
Abbreviation merr_t := Z (only parsing).

Definition ENOENT : Z := 2.
Definition EAGAIN : Z := 11.
Definition EBUSY : Z := 16.
Definition EINVAL : Z := 22.
Definition EALREADY : Z := 114.
Definition EBUG : Z := 666.

Definition merr (errnum : Z) : merr_t := errnum.
Definition merr_errno (err : merr_t) : Z := err.

(** Modelled from the spec: the two directions of a transfer (the [rw]
    argument), constants of a header that is not among the sources. *)
Definition MPOOL_OP_READ : Z := 0.
Definition MPOOL_OP_WRITE : Z := 1.

(** ** Data

    Modelled from the spec: the structures are declared in headers that
    are not among the sources.  Each record holds the fields that
    [mblock.c] reads or writes, at the width [mblock.c] uses them at:
    [eld_mblen] is compared with the 32-bit capacity and printed with
    [%d], [eld_state] is read into a [u8], [pdi_optiosz] is returned as a
    [u32]. *)

(** Addresses of object records. *)
Abbreviation loc := positive (only parsing).

(** [struct mblock_descriptor *]: the opaque handle, NULL or the address
    of an object record. *)
Abbreviation mblock_descriptor := (option positive) (only parsing).

Record mpool_descriptor := { pds_name : string }.

(** The fields of [struct mpool_dev_info] that [mblock.c] reads. *)
Record mpool_dev_info := {
  pdi_optiosz : u32;
  pdi_fua : bool;
  pdi_mclass : Z;
}.

Record omf_layout_descriptor := { ol_zcnt : Z }.

(** The fields of [struct pmd_layout] that [mblock.c] reads or writes. *)
Record pmd_layout := {
  eld_objid : u64;
  eld_ref : Z;
  eld_state : u8;
  eld_mblen : u32;
  eld_ld : omf_layout_descriptor;
}.

Definition set_eld_mblen (v : u32) (layout : pmd_layout) : pmd_layout :=
  {| eld_objid := eld_objid layout; eld_ref := eld_ref layout;
     eld_state := eld_state layout; eld_mblen := v; eld_ld := eld_ld layout |}.

Record pmd_obj_capacity := { moc_captgt : u64; moc_spare : bool }.

Record kvec := { iov_base : Z; iov_len : Z }.

Record mblock_props := {
  mpr_objid : u64;
  mpr_alloc_cap : u32;
  mpr_write_len : u32;
  mpr_optimal_wrsz : u32;
  mpr_mclassp : Z;
  mpr_iscommitted : u8;
}.

Record mblock_props_ex := {
  mbx_props : mblock_props;
  mbx_zonecnt : Z;
}.

(** ** The collaborator: object directory and device layer

    What [mblock.c] calls and does not define.  [D] is the collaborator's
    own state (media, metadata containers, device queues).  Capacity and
    device of a layout are read from the pool's geometry, which is fixed
    once the pool is activated.  The raw transfer and the device flush
    work on [D] alone; the directory operations also own the object
    records.  The constants [OMF_OBJ_MBLOCK], [PMD_LYT_COMMITTED] and
    [REQ_FUA] come from headers of the collaborator. *)

Class Pmd (D : Type) := {
  OMF_OBJ_MBLOCK : Z;
  PMD_LYT_COMMITTED : u8;
  REQ_FUA : c_int;
  pmd_objid_type : u64 -> Z;
  pmd_layout_cap_get : mpool_descriptor -> pmd_layout -> Z;
  pmd_layout_pd_get : mpool_descriptor -> pmd_layout -> mpool_dev_info;
  pd_dev_flush : mpool_dev_info -> D -> merr_t * D;
  pmd_layout_rw :
    mpool_descriptor -> pmd_layout -> list kvec -> c_int ->
    Z -> c_int -> Z -> D -> merr_t * D;
  pmd_obj_commit :
    mpool_descriptor -> loc -> gmap positive pmd_layout -> D ->
    merr_t * gmap positive pmd_layout * D;
  pmd_obj_abort :
    mpool_descriptor -> loc -> gmap positive pmd_layout -> D ->
    merr_t * gmap positive pmd_layout * D;
  pmd_obj_delete :
    mpool_descriptor -> loc -> gmap positive pmd_layout -> D ->
    merr_t * gmap positive pmd_layout * D;
  pmd_obj_put :
    mpool_descriptor -> loc -> gmap positive pmd_layout -> D ->
    gmap positive pmd_layout * D;
  pmd_obj_find_get :
    mpool_descriptor -> u64 -> c_int -> gmap positive pmd_layout -> D ->
    option loc * gmap positive pmd_layout * D;
  pmd_obj_alloc :
    mpool_descriptor -> Z -> pmd_obj_capacity -> Z ->
    gmap positive pmd_layout -> D ->
    merr_t * option loc * gmap positive pmd_layout * D;
  pmd_obj_realloc :
    mpool_descriptor -> u64 -> pmd_obj_capacity -> Z ->
    gmap positive pmd_layout -> D ->
    merr_t * option loc * gmap positive pmd_layout * D;
}.

(** Calls made to the collaborator, in the order they are made. *)
Inductive pmd_call :=
  | Call_obj_alloc (otype : Z) (ocap : pmd_obj_capacity) (mclassp : Z)
  | Call_obj_realloc (objid : u64) (ocap : pmd_obj_capacity) (mclassp : Z)
  | Call_obj_find_get (objid : u64) (which : c_int)
  | Call_obj_put (layout : loc)
  | Call_obj_commit (layout : loc)
  | Call_obj_abort (layout : loc)
  | Call_obj_delete (layout : loc)
  | Call_dev_flush (pd : mpool_dev_info)
  | Call_layout_rw (layout : loc) (iovcnt : c_int) (boff : u64)
                   (flags : c_int) (rw : Z)
  | Call_obj_rdlock (layout : loc)
  | Call_obj_rdunlock (layout : loc)
  | Call_obj_wrlock (layout : loc)
  | Call_obj_wrunlock (layout : loc).

(** Kernel-log macros reached, with their format strings.  Whether a
    rate-limited, once-only or debug message is really printed is the
    logging subsystem's business. *)
Inductive klevel := K_WARN_ONCE | K_ERR | K_WARN_RL | K_ERR_RL | K_DEBUG.

Record kmsg := { k_level : klevel; k_fmt : string }.

(** ** State, outcomes and sequencing *)

Record world (D : Type) := World {
  w_objs : gmap positive pmd_layout;
  w_pmd : D;
  w_calls : list pmd_call;
  w_klog : list kmsg;
}.

#[global] Arguments World {D} _ _ _ _.
#[global] Arguments w_objs {D} _.
#[global] Arguments w_pmd {D} _.
#[global] Arguments w_calls {D} _.
#[global] Arguments w_klog {D} _.

Inductive trap := Assert_failed | Divide_error | Bad_pointer.

(** A call returns a value in a new state, or stops in a trap; the
    state in which it stopped is kept. *)
Inductive outcome (D A : Type) :=
  | Ret (a : A) (w : world D)
  | Trap (t : trap) (w : world D).

#[global] Arguments Ret {D A} a w.
#[global] Arguments Trap {D A} t w.

Definition exec (D A : Type) : Type := world D -> outcome D A.

Definition ret {D A} (a : A) : exec D A := fun w => Ret a w.

Definition bind {D A B} (m : exec D A) (k : A -> exec D B) : exec D B :=
  fun w => match m w with
           | Ret a w' => k a w'
           | Trap t w' => Trap t w'
           end.

Definition trap_with {D A} (t : trap) : exec D A := fun w => Trap t w.

(** Modelled from the spec: [assert] is a macro of a header that is not
    among the sources.  The specification calls what it checks a caller
    contract, "asserted rather than soft-validated": a call whose
    assertion is false stops there. *)
Definition assert {D} (e : bool) : exec D unit :=
  if e then ret tt else trap_with Assert_failed.

Definition final {D A} (o : outcome D A) : world D :=
  match o with Ret _ w => w | Trap _ w => w end.

Notation "x <- m ;; k" := (bind m (fun x => k))
  (at level 100, m at next level, right associativity).
Notation "m ;;; k" := (bind m (fun _ => k))
  (at level 100, right associativity).

(** ** The functions of [mblock.c] *)

Section Mblock.

Context {D : Type} `{!Pmd D}.

(** *** Memory, logs and calls *)

Definition load (layout : loc) : exec D pmd_layout :=
  fun w => match w_objs w !! layout with
           | Some lay => Ret lay w
           | None => Trap Bad_pointer w
           end.

Definition store (layout : loc) (lay : pmd_layout) : exec D unit :=
  fun w => Ret tt (World (<[layout := lay]> (w_objs w)) (w_pmd w)
                         (w_calls w) (w_klog w)).

Definition log_call (c : pmd_call) : exec D unit :=
  fun w => Ret tt (World (w_objs w) (w_pmd w) (w_calls w ++ [c]) (w_klog w)).

Definition printk (lvl : klevel) (fmt : string) : exec D unit :=
  fun w => Ret tt (World (w_objs w) (w_pmd w) (w_calls w)
                         (w_klog w ++ [{| k_level := lvl; k_fmt := fmt |}])).

Definition WARN_ONCE (cond : bool) (fmt : string) : exec D unit :=
  if cond then printk K_WARN_ONCE fmt else ret tt.

Definition mp_pr_err (fmt : string) : exec D unit := printk K_ERR fmt.
Definition mp_pr_rl (fmt : string) : exec D unit := printk K_ERR_RL fmt.
Definition mp_pr_debug (fmt : string) : exec D unit := printk K_DEBUG fmt.

Definition mp_pr_layout_not_found : exec D unit :=
  printk K_WARN_RL "mpool %s, layout not found: mbh %p".

(** A call of a device or transfer primitive: logged, then run on the
    collaborator's state. *)
Definition call_dev (c : pmd_call) (f : D -> merr_t * D) : exec D merr_t :=
  fun w => let '(err, d) := f (w_pmd w) in
           Ret err (World (w_objs w) d (w_calls w ++ [c]) (w_klog w)).

(** A call of a directory primitive, which may also change the object
    records. *)
Definition call_dir {A} (c : pmd_call)
    (f : gmap positive pmd_layout -> D -> A * gmap positive pmd_layout * D)
    : exec D A :=
  fun w => let '(a, objs, d) := f (w_objs w) (w_pmd w) in
           Ret a (World objs d (w_calls w ++ [c]) (w_klog w)).

Definition pmd_obj_rdlock (layout : loc) : exec D unit :=
  log_call (Call_obj_rdlock layout).
Definition pmd_obj_rdunlock (layout : loc) : exec D unit :=
  log_call (Call_obj_rdunlock layout).
Definition pmd_obj_wrlock (layout : loc) : exec D unit :=
  log_call (Call_obj_wrlock layout).
Definition pmd_obj_wrunlock (layout : loc) : exec D unit :=
  log_call (Call_obj_wrunlock layout).

(** *** Identifiers and handles *)

Definition mblock_objid (objid : u64) : bool :=
  negb (objid =? 0) && (pmd_objid_type objid =? OMF_OBJ_MBLOCK).

Definition mblock2layout (mbh : mblock_descriptor) : exec D (option loc) :=
  match mbh with
  | None => ret None
  | Some layout =>
      lay <- load layout ;;
      WARN_ONCE ((eld_objid lay =? 0) || (eld_ref lay <? 2))
                "%s: %p, objid %lx, state %x, refcnt %ld\n" ;;;
      ret (if mblock_objid (eld_objid lay) then Some layout else None)
  end.

Definition mblock_optimal_iosz_get (mp : mpool_descriptor)
    (layout : pmd_layout) : u32 :=
  let pd := pmd_layout_pd_get mp layout in
  to_u32 (pdi_optiosz pd).

Definition layout2mblock (layout : loc) : mblock_descriptor := Some layout.

(** *** Properties *)

Definition mblock_getprops_cmn (mp : mpool_descriptor) (layout : option loc)
    (prop : option mblock_props) : exec D (option mblock_props) :=
  assert (bool_decide (is_Some layout)) ;;;
  assert (bool_decide (is_Some prop)) ;;;
  match layout with
  | None => trap_with Bad_pointer
  | Some layout =>
      lay <- load layout ;;
      let pd := pmd_layout_pd_get mp lay in
      ret (Some {| mpr_objid := eld_objid lay;
                   mpr_alloc_cap := to_u32 (pmd_layout_cap_get mp lay);
                   mpr_write_len := eld_mblen lay;
                   mpr_optimal_wrsz := mblock_optimal_iosz_get mp lay;
                   mpr_mclassp := pdi_mclass pd;
                   mpr_iscommitted :=
                     Z.land (eld_state lay) PMD_LYT_COMMITTED |})
  end.

(** [if (prop) { rdlock; getprops; rdunlock }] of the allocation and
    lookup paths. *)
Definition getprops_if (mp : mpool_descriptor) (layout : loc)
    (prop : option mblock_props) : exec D (option mblock_props) :=
  match prop with
  | None => ret None
  | Some _ =>
      pmd_obj_rdlock layout ;;;
      prop <- mblock_getprops_cmn mp (Some layout) prop ;;
      pmd_obj_rdunlock layout ;;;
      ret prop
  end.

(** *** Lifecycle

    A function with out-parameters takes their contents at the call and
    returns their contents at the return. *)

Definition mblock_alloc_cmn (mp : option mpool_descriptor) (objid : u64)
    (mclassp : Z) (spare : bool) (prop : option mblock_props)
    (mbh : mblock_descriptor)
    : exec D (merr_t * option mblock_props * mblock_descriptor) :=
  match mp with
  | None => ret (merr EINVAL, prop, mbh)
  | Some mp =>
      let mbh : mblock_descriptor := None in
      let ocap := {| moc_captgt := 0; moc_spare := spare |} in
      if objid =? 0 then
        r <- call_dir (Call_obj_alloc OMF_OBJ_MBLOCK ocap mclassp)
                      (pmd_obj_alloc mp OMF_OBJ_MBLOCK ocap mclassp) ;;
        let '(err, layout) := r in
        if negb (err =? 0) then ret (err, prop, mbh)
        else
          match layout with
          | None => ret (merr EBUG, prop, mbh)
          | Some layout =>
              prop <- getprops_if mp layout prop ;;
              ret (0, prop, layout2mblock layout)
          end
      else
        r <- call_dir (Call_obj_realloc objid ocap mclassp)
                      (pmd_obj_realloc mp objid ocap mclassp) ;;
        let '(err, layout) := r in
        if negb (err =? 0) then
          (if negb (merr_errno err =? ENOENT)
           then mp_pr_err "mpool %s, re-allocating mblock 0x%lx failed"
           else ret tt) ;;;
          ret (err, prop, mbh)
        else
          match layout with
          | None => ret (merr EBUG, prop, mbh)
          | Some layout =>
              prop <- getprops_if mp layout prop ;;
              ret (0, prop, layout2mblock layout)
          end
  end.

Definition mblock_alloc (mp : option mpool_descriptor) (mclassp : Z)
    (spare : bool) (mbh : mblock_descriptor) (prop : option mblock_props)
    : exec D (merr_t * option mblock_props * mblock_descriptor) :=
  mblock_alloc_cmn mp 0 mclassp spare prop mbh.

Definition mblock_realloc (mp : option mpool_descriptor) (objid : u64)
    (mclassp : Z) (spare : bool) (mbh : mblock_descriptor)
    (prop : option mblock_props)
    : exec D (merr_t * option mblock_props * mblock_descriptor) :=
  if negb (mblock_objid objid) then ret (merr EINVAL, prop, mbh)
  else mblock_alloc_cmn mp objid mclassp spare prop mbh.

Definition mblock_find_get (mp : mpool_descriptor) (objid : u64)
    (which : c_int) (prop : option mblock_props) (mbh : mblock_descriptor)
    : exec D (merr_t * option mblock_props * mblock_descriptor) :=
  let mbh : mblock_descriptor := None in
  if negb (mblock_objid objid) then ret (merr EINVAL, prop, mbh)
  else
    layout <- call_dir (Call_obj_find_get objid which)
                       (pmd_obj_find_get mp objid which) ;;
    match layout with
    | None => ret (merr ENOENT, prop, mbh)
    | Some layout =>
        prop <- getprops_if mp layout prop ;;
        ret (0, prop, layout2mblock layout)
    end.

Definition mblock_put (mp : mpool_descriptor) (mbh : mblock_descriptor)
    : exec D unit :=
  layout <- mblock2layout mbh ;;
  match layout with
  | Some layout =>
      call_dir (Call_obj_put layout)
               (fun objs d => let '(objs', d') := pmd_obj_put mp layout objs d in
                              (tt, objs', d'))
  | None => ret tt
  end.

Definition mblock_commit (mp : mpool_descriptor) (mbh : mblock_descriptor)
    : exec D merr_t :=
  layout <- mblock2layout mbh ;;
  match layout with
  | None => mp_pr_layout_not_found ;;; ret (merr EINVAL)
  | Some layout =>
      lay <- load layout ;;
      let pd := pmd_layout_pd_get mp lay in
      err <- (if negb (pdi_fua pd)
              then call_dev (Call_dev_flush pd) (pd_dev_flush pd)
              else ret 0) ;;
      if negb (err =? 0) then ret err
      else
        (* Commit will fail with EBUSY if aborting flag set. *)
        err <- call_dir (Call_obj_commit layout) (pmd_obj_commit mp layout) ;;
        if negb (err =? 0) then
          mp_pr_rl "mpool %s, committing mblock 0x%lx failed" ;;;
          ret err
        else ret 0
  end.

Definition mblock_abort (mp : mpool_descriptor) (mbh : mblock_descriptor)
    : exec D merr_t :=
  layout <- mblock2layout mbh ;;
  match layout with
  | None => mp_pr_layout_not_found ;;; ret (merr EINVAL)
  | Some layout =>
      err <- call_dir (Call_obj_abort layout) (pmd_obj_abort mp layout) ;;
      if negb (err =? 0) then
        mp_pr_err "mpool %s, aborting mblock 0x%lx failed" ;;;
        ret err
      else ret 0
  end.

Definition mblock_delete (mp : mpool_descriptor) (mbh : mblock_descriptor)
    : exec D merr_t :=
  layout <- mblock2layout mbh ;;
  match layout with
  | None => mp_pr_layout_not_found ;;; ret (merr EINVAL)
  | Some layout =>
      call_dir (Call_obj_delete layout) (pmd_obj_delete mp layout)
  end.

(** *** Transfer path *)

(** [boff] is a [loff_t], [len] a [size_t], [mblock_cap] a [u32] and
    [opt_iosz] a [u64].  A comparison of [boff] with a 32-bit unsigned
    value is made on signed 64-bit values; [boff + len] and
    [boff % opt_iosz] are computed on unsigned 64-bit values. *)
Definition mblock_rw_argcheck (mp : mpool_descriptor) (layout : loc)
    (boff : s64) (rw : c_int) (len : u64) : exec D merr_t :=
  lay <- load layout ;;
  let mblock_cap := to_u32 (pmd_layout_cap_get mp lay) in
  let opt_iosz := mblock_optimal_iosz_get mp lay in
  if rw =? MPOOL_OP_READ then
    (* boff must be a multiple of the OS page size *)
    if negb (PAGE_ALIGNED boff) then
      mp_pr_err "mpool %s, read offset 0x%lx is not multiple of OS page size" ;;;
      ret (merr EINVAL)
    (* Check that boff is not past end of mblock capacity. *)
    else if mblock_cap <=? boff then
      mp_pr_err "mpool %s, read offset 0x%lx >= mblock capacity 0x%x" ;;;
      ret (merr EINVAL)
    (* Check that the request does not extend past the data written.
       Don't record an error if this appears to be an mcache readahead
       request.  TODO: Use (len != MCACHE_RA_PAGES_MAX) *)
    else if to_u64 (boff + len) >? eld_mblen lay then
      ret (merr EINVAL)
    else ret 0
  else
    (* Write boff required to match eld_mblen *)
    if negb (boff =? eld_mblen lay) then
      mp_pr_err "mpool %s write boff (%ld) != eld_mblen (%d)" ;;;
      ret (merr EINVAL)
    (* Writes must be optimal iosz aligned *)
    else if opt_iosz =? 0 then trap_with Divide_error
    else if negb (to_u64 boff mod opt_iosz =? 0) then
      mp_pr_err "mpool %s, write not optimal iosz aligned, offset 0x%lx" ;;;
      ret (merr EINVAL)
    (* Check for write past end of allocated space (!) *)
    else if to_u64 (len + boff) >? mblock_cap then
      mp_pr_err "(write): len %lu + boff %lu > mblock_cap %lu" ;;;
      ret (merr EINVAL)
    else ret 0.

(** Modelled from the spec: the prototype of [pmd_layout_rw] is in a
    header that is not among the sources.  Its offset parameter is a
    [u64], as [Call_layout_rw] records it, so the [loff_t] offset of the
    callers is converted at the call: a negative offset arrives as
    [2^64 + boff]. *)
Definition call_layout_rw (mp : mpool_descriptor) (layout : loc)
    (iov : list kvec) (iovcnt : c_int) (boff : s64) (flags : c_int) (rw : Z)
    : exec D merr_t :=
  lay <- load layout ;;
  call_dev (Call_layout_rw layout iovcnt (to_u64 boff) flags rw)
           (pmd_layout_rw mp lay iov iovcnt (to_u64 boff) flags rw).

Definition committed (state : Z) : bool :=
  negb (Z.land state PMD_LYT_COMMITTED =? 0).

Definition mblock_write (mp : mpool_descriptor) (mbh : mblock_descriptor)
    (iov : list kvec) (iovcnt : c_int) (len : u64) : exec D merr_t :=
  layout <- mblock2layout mbh ;;
  match layout with
  | None => mp_pr_layout_not_found ;;; ret (merr EINVAL)
  | Some layout =>
      lay <- load layout ;;
      err <- mblock_rw_argcheck mp layout (eld_mblen lay) MPOOL_OP_WRITE len ;;
      if negb (err =? 0) then
        mp_pr_debug "mblock write argcheck failed " ;;;
        ret err
      else if len =? 0 then ret 0
      else
        lay <- load layout ;;
        let boff := eld_mblen lay in
        assert (PAGE_ALIGNED len) ;;;
        assert (to_u64 iovcnt =? Z.shiftr len PAGE_SHIFT) ;;;
        assert (PAGE_ALIGNED boff) ;;;
        pmd_obj_wrlock layout ;;;
        lay <- load layout ;;
        let state := to_u8 (eld_state lay) in
        err <- (if negb (committed state) then
                  let pd := pmd_layout_pd_get mp lay in
                  let flags := if pdi_fua pd then REQ_FUA else 0 in
                  err <- call_layout_rw mp layout iov iovcnt boff flags
                                        MPOOL_OP_WRITE ;;
                  (if err =? 0 then
                     lay <- load layout ;;
                     store layout
                           (set_eld_mblen (to_u32 (eld_mblen lay + len)) lay)
                   else ret tt) ;;;
                  ret err
                else ret err) ;;
        pmd_obj_wrunlock layout ;;;
        ret (if negb (committed state) then err else merr EALREADY)
  end.

Definition mblock_read (mp : option mpool_descriptor)
    (mbh : mblock_descriptor) (iov : list kvec) (iovcnt : c_int)
    (boff : s64) (len : u64) : exec D merr_t :=
  assert (bool_decide (is_Some mp)) ;;;
  match mp with
  | None => trap_with Bad_pointer
  | Some mp =>
      layout <- mblock2layout mbh ;;
      match layout with
      | None => mp_pr_layout_not_found ;;; ret (merr EINVAL)
      | Some layout =>
          err <- mblock_rw_argcheck mp layout boff MPOOL_OP_READ len ;;
          if negb (err =? 0) then
            mp_pr_debug "mblock read argcheck failed " ;;;
            ret err
          else if len =? 0 then ret 0
          else
            assert (PAGE_ALIGNED len) ;;;
            assert (PAGE_ALIGNED boff) ;;;
            assert (to_u64 iovcnt =? Z.shiftr len PAGE_SHIFT) ;;;
            (* Read lock the mblock layout; mblock reads can proceed
               concurrently; mblock writes are serialized but concurrent
               with reads *)
            pmd_obj_rdlock layout ;;;
            lay <- load layout ;;
            let state := to_u8 (eld_state lay) in
            err <- (if committed state then
                      call_layout_rw mp layout iov iovcnt boff 0 MPOOL_OP_READ
                    else ret err) ;;
            pmd_obj_rdunlock layout ;;;
            ret (if committed state then err else merr EAGAIN)
      end
  end.

Definition mblock_get_props (mp : mpool_descriptor) (mbh : mblock_descriptor)
    (prop : option mblock_props) : exec D (merr_t * option mblock_props) :=
  layout <- mblock2layout mbh ;;
  match layout with
  | None => mp_pr_layout_not_found ;;; ret (merr EINVAL, prop)
  | Some layout =>
      pmd_obj_rdlock layout ;;;
      prop <- mblock_getprops_cmn mp (Some layout) prop ;;
      pmd_obj_rdunlock layout ;;;
      ret (0, prop)
  end.

Definition mblock_get_props_ex (mp : mpool_descriptor)
    (mbh : mblock_descriptor) (prop : mblock_props_ex)
    : exec D (merr_t * mblock_props_ex) :=
  layout <- mblock2layout mbh ;;
  match layout with
  | None => mp_pr_layout_not_found ;;; ret (merr EINVAL, prop)
  | Some layout =>
      pmd_obj_rdlock layout ;;;
      lay <- load layout ;;
      let zonecnt := ol_zcnt (eld_ld lay) in
      props <- mblock_getprops_cmn mp (Some layout) (Some (mbx_props prop)) ;;
      pmd_obj_rdunlock layout ;;;
      ret (0, {| mbx_props := default (mbx_props prop) props;
                 mbx_zonecnt := zonecnt |})
  end.

(** *** The interface as a whole

    One constructor per exported function, so that "every operation" and
    "any later call" can be quantified over. *)

Inductive mblock_op :=
  | Op_alloc (mp : option mpool_descriptor) (mclassp : Z) (spare : bool)
             (mbh : mblock_descriptor) (prop : option mblock_props)
  | Op_realloc (mp : option mpool_descriptor) (objid : u64) (mclassp : Z)
               (spare : bool) (mbh : mblock_descriptor)
               (prop : option mblock_props)
  | Op_find_get (mp : mpool_descriptor) (objid : u64) (which : c_int)
                (prop : option mblock_props) (mbh : mblock_descriptor)
  | Op_put (mp : mpool_descriptor) (mbh : mblock_descriptor)
  | Op_commit (mp : mpool_descriptor) (mbh : mblock_descriptor)
  | Op_abort (mp : mpool_descriptor) (mbh : mblock_descriptor)
  | Op_delete (mp : mpool_descriptor) (mbh : mblock_descriptor)
  | Op_write (mp : mpool_descriptor) (mbh : mblock_descriptor)
             (iov : list kvec) (iovcnt : c_int) (len : u64)
  | Op_read (mp : option mpool_descriptor) (mbh : mblock_descriptor)
            (iov : list kvec) (iovcnt : c_int) (boff : s64) (len : u64)
  | Op_get_props (mp : mpool_descriptor) (mbh : mblock_descriptor)
                 (prop : option mblock_props)
  | Op_get_props_ex (mp : mpool_descriptor) (mbh : mblock_descriptor)
                    (prop : mblock_props_ex).

(** The call an operation stands for, with its [merr_t] result
    ([mblock_put] returns nothing: 0). *)
Definition run_op (op : mblock_op) : exec D merr_t :=
  match op with
  | Op_alloc mp mclassp spare mbh prop =>
      r <- mblock_alloc mp mclassp spare mbh prop ;; ret (r.1.1)
  | Op_realloc mp objid mclassp spare mbh prop =>
      r <- mblock_realloc mp objid mclassp spare mbh prop ;; ret (r.1.1)
  | Op_find_get mp objid which prop mbh =>
      r <- mblock_find_get mp objid which prop mbh ;; ret (r.1.1)
  | Op_put mp mbh => mblock_put mp mbh ;;; ret 0
  | Op_commit mp mbh => mblock_commit mp mbh
  | Op_abort mp mbh => mblock_abort mp mbh
  | Op_delete mp mbh => mblock_delete mp mbh
  | Op_write mp mbh iov iovcnt len => mblock_write mp mbh iov iovcnt len
  | Op_read mp mbh iov iovcnt boff len => mblock_read mp mbh iov iovcnt boff len
  | Op_get_props mp mbh prop =>
      r <- mblock_get_props mp mbh prop ;; ret (r.1)
  | Op_get_props_ex mp mbh prop =>
      r <- mblock_get_props_ex mp mbh prop ;; ret (r.1)
  end.

(** ** What is assumed of the collaborator

    The directory owns the records, so what it does to them is not
    decided by [mblock.c].  A record that is still there after a
    directory call is the record that was there before it: same
    identifier, same written length, same capacity and device, and
    committed if it was. *)

Definition layout_kept (a b : pmd_layout) : Prop :=
  eld_objid b = eld_objid a /\
  eld_mblen b = eld_mblen a /\
  (forall mp, pmd_layout_cap_get mp b = pmd_layout_cap_get mp a) /\
  (forall mp, pmd_layout_pd_get mp b = pmd_layout_pd_get mp a) /\
  (committed (to_u8 (eld_state a)) = true ->
   committed (to_u8 (eld_state b)) = true).

Definition objs_kept (objs objs' : gmap positive pmd_layout) : Prop :=
  forall (l : positive) (a b : pmd_layout),
    objs !! l = Some a -> objs' !! l = Some b -> layout_kept a b.

Class PmdLaws : Prop := {
  pmd_obj_alloc_kept : forall mp otype ocap mclassp objs d r objs' d',
    pmd_obj_alloc mp otype ocap mclassp objs d = (r, objs', d') ->
    objs_kept objs objs';
  pmd_obj_realloc_kept : forall mp objid ocap mclassp objs d r objs' d',
    pmd_obj_realloc mp objid ocap mclassp objs d = (r, objs', d') ->
    objs_kept objs objs';
  pmd_obj_find_get_kept : forall mp objid which objs d r objs' d',
    pmd_obj_find_get mp objid which objs d = (r, objs', d') ->
    objs_kept objs objs';
  pmd_obj_put_kept : forall mp l objs d objs' d',
    pmd_obj_put mp l objs d = (objs', d') -> objs_kept objs objs';
  pmd_obj_commit_kept : forall mp l objs d err objs' d',
    pmd_obj_commit mp l objs d = (err, objs', d') -> objs_kept objs objs';
  pmd_obj_abort_kept : forall mp l objs d err objs' d',
    pmd_obj_abort mp l objs d = (err, objs', d') -> objs_kept objs objs';
  pmd_obj_delete_kept : forall mp l objs d err objs' d',
    pmd_obj_delete mp l objs d = (err, objs', d') -> objs_kept objs objs';
  (** A commit that succeeds leaves the record in place, committed. *)
  pmd_obj_commit_done : forall mp l objs d objs' d',
    pmd_obj_commit mp l objs d = (0, objs', d') ->
    is_Some (objs !! l) ->
    exists b, objs' !! l = Some b /\ committed (to_u8 (eld_state b)) = true;
}.

End Mblock.

#[global] Arguments PmdLaws D {_}.

(** ** Relations between states *)

(** Nothing happened but kernel-log messages: same records, same
    collaborator state, and no call to the collaborator, not even for a
    lock. *)
Definition same_but_klog {D} (w w' : world D) : Prop :=
  w_objs w' = w_objs w /\ w_pmd w' = w_pmd w /\ w_calls w' = w_calls w.

Section Held.

Context {D : Type} `{!Pmd D}.

(** [still_held l w w']: [w'] is reached from [w] by calls of the
    interface, and the record at [l] is there after each of them (the
    caller holds a reference to it). *)
Inductive still_held (l : positive) : world D -> world D -> Prop :=
  | held_refl w : still_held l w w
  | held_step w1 w2 op r w3 :
      still_held l w1 w2 ->
      run_op op w2 = Ret r w3 ->
      is_Some (w_objs w3 !! l) ->
      still_held l w1 w3.

(** The handle [mbh] resolves to the record [lay] at [l]. *)
Definition resolves (w : world D) (mbh : mblock_descriptor) (l : positive)
    (lay : pmd_layout) : Prop :=
  w_objs w !! l = Some lay /\
  exists w0, mblock2layout mbh w = Ret (Some l) w0.

(** The handle [mbh] does not resolve: it is NULL, or it points to a
    record whose identifier is not an mblock identifier. *)
Definition unresolved (w : world D) (mbh : mblock_descriptor) : Prop :=
  mbh = None \/
  exists l lay, mbh = Some l /\ w_objs w !! l = Some lay /\
                mblock_objid (eld_objid lay) = false.

End Held.

(** ** Lock discipline of a call log

    [lock_walk held cs] reads the calls [cs] with the locks [held]
    (innermost first) and returns the locks held at the end.  It fails
    when a lock is released that is not the innermost one held, when a
    transfer is issued without the lock of its layout (the read lock for
    a read, the write lock for a write), or when any other call of the
    collaborator is made while a lock is held. *)

Inductive held_lock := Held_rd (l : positive) | Held_wr (l : positive).

Fixpoint lock_walk (held : list held_lock) (cs : list pmd_call)
    : option (list held_lock) :=
  match cs with
  | [] => Some held
  | Call_obj_rdlock l :: cs => lock_walk (Held_rd l :: held) cs
  | Call_obj_wrlock l :: cs => lock_walk (Held_wr l :: held) cs
  | Call_obj_rdunlock l :: cs =>
      match held with
      | Held_rd l' :: held' =>
          if bool_decide (l = l') then lock_walk held' cs else None
      | _ => None
      end
  | Call_obj_wrunlock l :: cs =>
      match held with
      | Held_wr l' :: held' =>
          if bool_decide (l = l') then lock_walk held' cs else None
      | _ => None
      end
  | Call_layout_rw l _ _ _ rw :: cs =>
      match held with
      | Held_rd l' :: _ =>
          if bool_decide (l = l') && (rw =? MPOOL_OP_READ)
          then lock_walk held cs else None
      | Held_wr l' :: _ =>
          if bool_decide (l = l') && (rw =? MPOOL_OP_WRITE)
          then lock_walk held cs else None
      | [] => None
      end
  | _ :: cs =>
      match held with
      | [] => lock_walk held cs
      | _ => None
      end
  end.

(** The calls of [if (prop) { rdlock; getprops; rdunlock }] on the
    layout [l]. *)
Definition props_calls (prop : option mblock_props) (l : positive)
    : list pmd_call :=
  match prop with
  | Some _ => [Call_obj_rdlock l; Call_obj_rdunlock l]
  | None => []
  end.

(** ** A reference collaborator

    Modelled from the spec: the object directory and the device layer are
    collaborators of this repository whose code is not among the sources.
    This instance follows what the specification says of them: commit
    flips the committed flag and fails with "busy" when the aborting flag
    is set, abort discards an uncommitted object, delete removes the
    object, release drops a reference, lookup takes one, allocation hands
    out a new record.  The device reports a 4 KiB optimal transfer size
    and no durable writes; its flush and its raw transfer return the
    results held in the state.  It serves to run the functions above on
    concrete inputs. *)

Record ref_state := {
  flush_result : merr_t;
  rw_result : merr_t;
  next_uniq : Z;
}.

Definition LYT_COMMITTED : Z := 1.
Definition LYT_ABORTING : Z := 2.

Definition set_eld_state (v : u8) (layout : pmd_layout) : pmd_layout :=
  {| eld_objid := eld_objid layout; eld_ref := eld_ref layout;
     eld_state := v; eld_mblen := eld_mblen layout; eld_ld := eld_ld layout |}.

Definition add_eld_ref (n : Z) (layout : pmd_layout) : pmd_layout :=
  {| eld_objid := eld_objid layout; eld_ref := eld_ref layout + n;
     eld_state := eld_state layout; eld_mblen := eld_mblen layout;
     eld_ld := eld_ld layout |}.

Definition ref_objid_type (objid : u64) : Z :=
  Z.land (Z.shiftr objid 8) 15.

Definition ref_cap_get (mp : mpool_descriptor) (layout : pmd_layout) : Z :=
  ol_zcnt (eld_ld layout) * 4096.

Definition ref_pd_get (mp : mpool_descriptor) (layout : pmd_layout)
    : mpool_dev_info :=
  {| pdi_optiosz := 4096; pdi_fua := false; pdi_mclass := 0 |}.

Definition ref_new_layout (objid : u64) : pmd_layout :=
  {| eld_objid := objid; eld_ref := 2; eld_state := 0; eld_mblen := 0;
     eld_ld := {| ol_zcnt := 2 |} |}.

Definition ref_obj_alloc (mp : mpool_descriptor) (otype : Z)
    (ocap : pmd_obj_capacity) (mclassp : Z)
    (objs : gmap positive pmd_layout) (d : ref_state)
    : merr_t * option positive * gmap positive pmd_layout * ref_state :=
  let l := fresh (dom objs) in
  let objid := Z.lor (Z.shiftl (next_uniq d) 12) (Z.shiftl otype 8) in
  (0, Some l, <[l := ref_new_layout objid]> objs,
   {| flush_result := flush_result d; rw_result := rw_result d;
      next_uniq := next_uniq d + 1 |}).

Definition ref_obj_realloc (mp : mpool_descriptor) (objid : u64)
    (ocap : pmd_obj_capacity) (mclassp : Z)
    (objs : gmap positive pmd_layout) (d : ref_state)
    : merr_t * option positive * gmap positive pmd_layout * ref_state :=
  let l := fresh (dom objs) in
  (0, Some l, <[l := ref_new_layout objid]> objs, d).

Definition ref_obj_find_get (mp : mpool_descriptor) (objid : u64)
    (which : c_int) (objs : gmap positive pmd_layout) (d : ref_state)
    : option positive * gmap positive pmd_layout * ref_state :=
  match List.find (fun e => eld_objid e.2 =? objid) (map_to_list objs) with
  | Some e => (Some e.1, alter (add_eld_ref 1) e.1 objs, d)
  | None => (None, objs, d)
  end.

Definition ref_obj_put (mp : mpool_descriptor) (l : positive)
    (objs : gmap positive pmd_layout) (d : ref_state)
    : gmap positive pmd_layout * ref_state :=
  (alter (add_eld_ref (-1)) l objs, d).

Definition ref_obj_commit (mp : mpool_descriptor) (l : positive)
    (objs : gmap positive pmd_layout) (d : ref_state)
    : merr_t * gmap positive pmd_layout * ref_state :=
  match objs !! l with
  | None => (merr EINVAL, objs, d)
  | Some a =>
      if negb (Z.land (eld_state a) LYT_ABORTING =? 0)
      then (merr EBUSY, objs, d)
      else (0, <[l := set_eld_state (Z.lor (eld_state a) LYT_COMMITTED) a]> objs, d)
  end.

Definition ref_obj_abort (mp : mpool_descriptor) (l : positive)
    (objs : gmap positive pmd_layout) (d : ref_state)
    : merr_t * gmap positive pmd_layout * ref_state :=
  match objs !! l with
  | None => (merr EINVAL, objs, d)
  | Some a =>
      if negb (Z.land (eld_state a) LYT_COMMITTED =? 0)
      then (merr EINVAL, objs, d)
      else (0, delete l objs, d)
  end.

Definition ref_obj_delete (mp : mpool_descriptor) (l : positive)
    (objs : gmap positive pmd_layout) (d : ref_state)
    : merr_t * gmap positive pmd_layout * ref_state :=
  (0, delete l objs, d).

#[global] Instance ref_pmd : Pmd ref_state := {|
  OMF_OBJ_MBLOCK := 1;
  PMD_LYT_COMMITTED := LYT_COMMITTED;
  REQ_FUA := 2048;
  pmd_objid_type := ref_objid_type;
  pmd_layout_cap_get := ref_cap_get;
  pmd_layout_pd_get := ref_pd_get;
  pd_dev_flush := fun pd d => (flush_result d, d);
  pmd_layout_rw := fun mp layout iov iovcnt boff flags rw d => (rw_result d, d);
  pmd_obj_commit := ref_obj_commit;
  pmd_obj_abort := ref_obj_abort;
  pmd_obj_delete := ref_obj_delete;
  pmd_obj_put := ref_obj_put;
  pmd_obj_find_get := ref_obj_find_get;
  pmd_obj_alloc := ref_obj_alloc;
  pmd_obj_realloc := ref_obj_realloc;
|}.

(** Concrete inputs: a pool, a device that is healthy, an mblock of
    capacity 8192 (two zones) at address 1, at several points of its
    life, and records that are not mblocks. *)

Definition mp0 : mpool_descriptor := {| pds_name := "mp0" |}.

Definition dev_ok : ref_state :=
  {| flush_result := 0; rw_result := 0; next_uniq := 1 |}.

Definition dev_flush_fails : ref_state :=
  {| flush_result := 5; rw_result := 0; next_uniq := 1 |}.

Definition mblock_id : u64 := 4352.
Definition mlog_id : u64 := 4608.

Definition lay_at (state : u8) (mblen : u32) : pmd_layout :=
  {| eld_objid := mblock_id; eld_ref := 2; eld_state := state;
     eld_mblen := mblen; eld_ld := {| ol_zcnt := 2 |} |}.

Definition lay_mlog : pmd_layout :=
  {| eld_objid := mlog_id; eld_ref := 2; eld_state := 0; eld_mblen := 0;
     eld_ld := {| ol_zcnt := 2 |} |}.

Definition world_of (lay : pmd_layout) (d : ref_state) : world ref_state :=
  World {[ 1%positive := lay ]} d [] [].

Definition one_page : list kvec := [ {| iov_base := 65536; iov_len := 4096 |} ].

Definition no_props : mblock_props :=
  {| mpr_objid := 0; mpr_alloc_cap := 0; mpr_write_len := 0;
     mpr_optimal_wrsz := 0; mpr_mclassp := 0; mpr_iscommitted := 0 |}.

(** Modelled from the spec: the reference collaborator with every layout
    on the device [pd], and with a directory that, when [dir_err] is not
    0, refuses to allocate and to reallocate with that error and hands
    out no layout.  It is not an instance: it is named where it is
    used. *)
Definition alt_pmd (pd : mpool_dev_info) (dir_err : merr_t)
    : Pmd ref_state := {|
  OMF_OBJ_MBLOCK := 1;
  PMD_LYT_COMMITTED := LYT_COMMITTED;
  REQ_FUA := 2048;
  pmd_objid_type := ref_objid_type;
  pmd_layout_cap_get := ref_cap_get;
  pmd_layout_pd_get := fun mp layout => pd;
  pd_dev_flush := fun pd d => (flush_result d, d);
  pmd_layout_rw := fun mp layout iov iovcnt boff flags rw d => (rw_result d, d);
  pmd_obj_commit := ref_obj_commit;
  pmd_obj_abort := ref_obj_abort;
  pmd_obj_delete := ref_obj_delete;
  pmd_obj_put := ref_obj_put;
  pmd_obj_find_get := ref_obj_find_get;
  pmd_obj_alloc := fun mp otype ocap mclassp objs d =>
    if dir_err =? 0 then ref_obj_alloc mp otype ocap mclassp objs d
    else (dir_err, None, objs, d);
  pmd_obj_realloc := fun mp objid ocap mclassp objs d =>
    if dir_err =? 0 then ref_obj_realloc mp objid ocap mclassp objs d
    else (dir_err, None, objs, d);
|}.

(** More concrete inputs: a device whose transfers fail with 5 (EIO), a
    device with durable writes, and a device that reports an optimal
    transfer size of 0. *)

Definition dev_rw_fails : ref_state :=
  {| flush_result := 0; rw_result := 5; next_uniq := 1 |}.

Definition pd_fua : mpool_dev_info :=
  {| pdi_optiosz := 4096; pdi_fua := true; pdi_mclass := 0 |}.

Definition pd_no_iosz : mpool_dev_info :=
  {| pdi_optiosz := 0; pdi_fua := false; pdi_mclass := 0 |}.

(** * Properties *)

(** ** Arithmetic of the asserted caller contract *)

Lemma to_u64_small z : is_u64 z -> to_u64 z = z.
Proof. unfold is_u64, to_u64. intros. apply Z.mod_small. lia. Qed.

Lemma to_u32_small z : is_u32 z -> to_u32 z = z.
Proof. unfold is_u32, to_u32. intros. apply Z.mod_small. lia. Qed.

Lemma to_u32_range z : is_u32 (to_u32 z).
Proof. unfold is_u32, to_u32. apply Z.mod_pos_bound. lia. Qed.

(** [assert(iovcnt == (len >> PAGE_SHIFT))] with [iovcnt] an [int] bounds
    [len]: a negative [iovcnt] converts to a value no shifted [size_t]
    reaches. *)
Lemma asserted_len_small iovcnt len :
  is_int iovcnt -> is_u64 len ->
  to_u64 iovcnt = Z.shiftr len PAGE_SHIFT -> len < 2 ^ 43.
Proof.
  unfold is_int, is_u64, to_u64, PAGE_SHIFT. intros Hi Hl E.
  rewrite Z.shiftr_div_pow2 in E by lia.
  destruct (Z_lt_le_dec iovcnt 0) as [Hn|Hp].
  - assert (iovcnt mod 2 ^ 64 = iovcnt + 2 ^ 64) as E'.
    { symmetry. apply Z.mod_unique with (q := -1); lia. }
    rewrite E' in E.
    assert (len / 2 ^ 12 < 2 ^ 52) by (apply Z.div_lt_upper_bound; lia).
    lia.
  - rewrite Z.mod_small in E by lia.
    pose proof (Z.mul_succ_div_gt len (2 ^ 12)). lia.
Qed.

(** ** Symbolic execution *)

Ltac exec_unfold :=
  unfold mblock_write, mblock_read, mblock_commit, mblock_abort,
    mblock_delete, mblock_put, mblock_find_get, mblock_realloc,
    mblock_alloc, mblock_alloc_cmn, mblock_get_props, mblock_get_props_ex,
    getprops_if, mblock_getprops_cmn, mblock_rw_argcheck, mblock2layout,
    layout2mblock, call_layout_rw, call_dev, call_dir,
    pmd_obj_rdlock, pmd_obj_rdunlock, pmd_obj_wrlock, pmd_obj_wrunlock,
    mp_pr_layout_not_found, mp_pr_err, mp_pr_rl, mp_pr_debug, WARN_ONCE,
    printk, log_call, store, load, assert, trap_with, bind, ret in *.

Ltac exec_run :=
  repeat (exec_unfold; simpl in *; try case_match; simplify_eq/=).

Ltac zbool :=
  repeat match goal with
    | H : negb _ = true |- _ => apply negb_true_iff in H
    | H : negb _ = false |- _ => apply negb_false_iff in H
    | H : (_ =? _) = true |- _ => apply Z.eqb_eq in H
    | H : (_ =? _) = false |- _ => apply Z.eqb_neq in H
    | H : (_ >? _) = true |- _ => apply Z.gtb_lt in H
    | H : (_ >? _) = false |- _ => rewrite Z.gtb_ltb in H; apply Z.ltb_ge in H
    | H : (_ <=? _) = true |- _ => apply Z.leb_le in H
    | H : (_ <=? _) = false |- _ => apply Z.leb_gt in H
    | H : (_ <? _) = true |- _ => apply Z.ltb_lt in H
    | H : (_ <? _) = false |- _ => apply Z.ltb_ge in H
    end.

(** ** Handles, and the two sides of the commit *)

Section Proofs.
Context {D : Type} `{!Pmd D}.

Lemma layout_kept_refl a : layout_kept a a.
Proof. unfold layout_kept. auto. Qed.

Lemma objs_kept_refl objs : objs_kept objs objs.
Proof. intros l a b Ha Hb. simplify_eq. apply layout_kept_refl. Qed.

(** What [mblock2layout] returning a record says of the handle. *)
Lemma mblock2layout_inv mbh w l w0 :
  mblock2layout mbh w = Ret (Some l) w0 ->
  mbh = Some l /\ same_but_klog w w0 /\
  exists lay, w_objs w !! l = Some lay /\ mblock_objid (eld_objid lay) = true.
Proof.
  unfold same_but_klog. intros H. exec_run; eauto 10.
Qed.

Lemma layout_kept_trans a b c :
  layout_kept a b -> layout_kept b c -> layout_kept a c.
Proof.
  unfold layout_kept. intros (?&?&Hc1&Hp1&?) (?&?&Hc2&Hp2&?).
  repeat split; try congruence; auto.
Qed.

(** A write that got past validation and the asserted contract cannot
    wrap: the new length is the exact sum. *)
Lemma write_no_wrap iovcnt len mblen cap :
  is_int iovcnt -> is_u64 len -> is_u32 mblen ->
  (to_u64 iovcnt =? Z.shiftr len PAGE_SHIFT) = true ->
  (to_u64 (len + mblen) >? to_u32 cap) = false ->
  to_u32 (mblen + len) = mblen + len.
Proof.
  intros Hi Hl Hm He Hc.
  apply Z.eqb_eq in He. pose proof (asserted_len_small _ _ Hi Hl He) as Hs.
  pose proof (to_u32_range cap) as Hr.
  unfold is_u64, is_u32 in *.
  rewrite to_u64_small in Hc by (unfold is_u64; lia).
  apply to_u32_small. unfold is_u32. lia.
Qed.

(** The successful append: the record, the calls, and that the mblock
    was not committed. *)
Lemma mblock_write_appends mp mbh iov iovcnt len w w' l lay :
  resolves w mbh l lay ->
  is_u32 (eld_mblen lay) -> is_u64 len -> is_int iovcnt -> 0 < len ->
  mblock_write mp mbh iov iovcnt len w = Ret 0 w' ->
  committed (to_u8 (eld_state lay)) = false /\
  w_objs w' = <[l := set_eld_mblen (eld_mblen lay + len) lay]> (w_objs w) /\
  w_calls w' =
    w_calls w ++
    [Call_obj_wrlock l;
     Call_layout_rw l iovcnt (eld_mblen lay)
       (if pdi_fua (pmd_layout_pd_get mp lay) then REQ_FUA else 0)
       MPOOL_OP_WRITE;
     Call_obj_wrunlock l].
Proof.
  intros [Hl [w0 Hr]] Hm Hlen Hi Hpos Hw.
  apply mblock2layout_inv in Hr as (-> & _ & _).
  exec_run; try lia.
  all: try (match goal with H : merr EALREADY = 0 |- _ => discriminate H end).
  all: erewrite write_no_wrap by eassumption.
  all: rewrite (to_u64_small (eld_mblen _))
    by (unfold is_u64, is_u32 in *; lia).
  all: repeat split; try done; try (by apply negb_true_iff).
  all: by rewrite <- !app_assoc.
Qed.

Lemma same_but_klog_refl (w : world D) : same_but_klog w w.
Proof. by unfold same_but_klog. Qed.

Lemma resolves_inv (w : world D) mbh l lay :
  resolves w mbh l lay ->
  mbh = Some l /\ w_objs w !! l = Some lay /\
  mblock_objid (eld_objid lay) = true.
Proof.
  intros [Hl [w0 Hr]].
  apply mblock2layout_inv in Hr as (-> & _ & lay' & Hl' & Hid).
  by simplify_eq.
Qed.

Lemma resolves_intro (w : world D) l lay :
  w_objs w !! l = Some lay -> mblock_objid (eld_objid lay) = true ->
  resolves w (Some l) l lay.
Proof.
  intros Hl Hid. split; [done|]. exec_run; eauto.
Qed.

(** What the property query reports. *)
Lemma mblock_get_props_reports mp l lay p (w : world D) :
  w_objs w !! l = Some lay -> mblock_objid (eld_objid lay) = true ->
  exists q w',
    mblock_get_props mp (Some l) (Some p) w = Ret (0, Some q) w' /\
    mpr_write_len q = eld_mblen lay /\
    mpr_alloc_cap q = to_u32 (pmd_layout_cap_get mp lay) /\
    mpr_objid q = eld_objid lay.
Proof.
  intros Hl Hid. exec_run; do 2 eexists; (split; [reflexivity|]); done.
Qed.

(** A write on a committed mblock: nothing moves, and the result is
    EINVAL, 0 for length 0, or EALREADY. *)
Lemma write_on_committed mp l lay iov iovcnt len (w : world D) :
  w_objs w !! l = Some lay -> mblock_objid (eld_objid lay) = true ->
  committed (to_u8 (eld_state lay)) = true ->
  (w_objs (final (mblock_write mp (Some l) iov iovcnt len w)) = w_objs w /\
   w_pmd (final (mblock_write mp (Some l) iov iovcnt len w)) = w_pmd w /\
   Forall (fun c => c = Call_obj_wrlock l \/ c = Call_obj_wrunlock l)
     (drop (length (w_calls w))
           (w_calls (final (mblock_write mp (Some l) iov iovcnt len w))))) /\
  (forall r w', mblock_write mp (Some l) iov iovcnt len w = Ret r w' ->
     r = merr EINVAL \/ (r = 0 /\ len = 0) \/ (r = merr EALREADY /\ len <> 0)) /\
  (mblock_rw_argcheck mp l (eld_mblen lay) MPOOL_OP_WRITE len w = Ret 0 w ->
   len <> 0 -> PAGE_ALIGNED len = true ->
   to_u64 iovcnt = Z.shiftr len PAGE_SHIFT ->
   PAGE_ALIGNED (eld_mblen lay) = true ->
   exists w', mblock_write mp (Some l) iov iovcnt len w =
                Ret (merr EALREADY) w').
Proof.
  intros Hl Hid Hc. split; [|split].
  - exec_run; zbool; try congruence; repeat split; try done.
    all: rewrite <- ?app_assoc, ?drop_app_length, ?drop_all; simpl; auto.
  - intros r w' Hw. exec_run; zbool; try congruence; auto.
  - intros Ha Hlen Hal Hio Hab.
    exec_run; zbool; try congruence; try lia; eauto.
Qed.

(** A read on an uncommitted mblock: nothing moves, and the result is
    EINVAL, 0 for length 0, or EAGAIN. *)
Lemma read_on_uncommitted mp l lay iov iovcnt boff len (w : world D) :
  w_objs w !! l = Some lay -> mblock_objid (eld_objid lay) = true ->
  committed (to_u8 (eld_state lay)) = false ->
  (w_objs (final (mblock_read (Some mp) (Some l) iov iovcnt boff len w)) = w_objs w /\
   w_pmd (final (mblock_read (Some mp) (Some l) iov iovcnt boff len w)) = w_pmd w /\
   Forall (fun c => c = Call_obj_rdlock l \/ c = Call_obj_rdunlock l)
     (drop (length (w_calls w))
           (w_calls (final (mblock_read (Some mp) (Some l) iov iovcnt boff len w))))) /\
  (forall r w', mblock_read (Some mp) (Some l) iov iovcnt boff len w = Ret r w' ->
     r = merr EINVAL \/ (r = 0 /\ len = 0) \/ (r = merr EAGAIN /\ len <> 0)) /\
  (mblock_rw_argcheck mp l boff MPOOL_OP_READ len w = Ret 0 w ->
   len <> 0 -> PAGE_ALIGNED len = true ->
   to_u64 iovcnt = Z.shiftr len PAGE_SHIFT ->
   exists w', mblock_read (Some mp) (Some l) iov iovcnt boff len w =
                Ret (merr EAGAIN) w').
Proof.
  intros Hl Hid Hc. split; [|split].
  - exec_run; zbool; try congruence; repeat split; try done.
    all: rewrite <- ?app_assoc, ?drop_app_length, ?drop_all; simpl; auto.
  - intros r w' Hw. exec_run; zbool; try congruence; auto.
  - intros Ha Hlen Hal Hio.
    exec_run; zbool; try congruence; try lia; eauto.
Qed.

(** A validated read on a committed mblock: one transfer under the read
    lock, at the offset as the callee takes it, whose result is the
    result of the read. *)
Lemma read_on_committed mp l lay iov iovcnt boff len (w : world D) :
  w_objs w !! l = Some lay -> mblock_objid (eld_objid lay) = true ->
  committed (to_u8 (eld_state lay)) = true ->
  PAGE_ALIGNED boff = true ->
  boff < to_u32 (pmd_layout_cap_get mp lay) ->
  to_u64 (boff + len) <= eld_mblen lay ->
  len <> 0 -> PAGE_ALIGNED len = true ->
  to_u64 iovcnt = Z.shiftr len PAGE_SHIFT ->
  exists w',
    mblock_read (Some mp) (Some l) iov iovcnt boff len w =
      Ret (pmd_layout_rw mp lay iov iovcnt (to_u64 boff) 0 MPOOL_OP_READ
             (w_pmd w)).1 w' /\
    w_calls w' =
      w_calls w ++ [Call_obj_rdlock l;
                    Call_layout_rw l iovcnt (to_u64 boff) 0 MPOOL_OP_READ;
                    Call_obj_rdunlock l] /\
    w_objs w' = w_objs w.
Proof.
  intros Hl Hid Hc Hab Hcap Hlen Hne Hal Hio.
  exec_run; zbool; try congruence; try lia.
  all: match goal with H : pmd_layout_rw _ _ _ _ _ _ _ _ = _ |- _ =>
         rewrite H end; simpl.
  all: eexists; (split; [reflexivity|]); simpl; rewrite <- ?app_assoc; done.
Qed.

(** The three conditions a read has passed when validation returns 0. *)
Lemma argcheck_read_passes mp l lay boff len (w : world D) :
  w_objs w !! l = Some lay ->
  mblock_rw_argcheck mp l boff MPOOL_OP_READ len w = Ret 0 w ->
  PAGE_ALIGNED boff = true /\
  boff < to_u32 (pmd_layout_cap_get mp lay) /\
  to_u64 (boff + len) <= eld_mblen lay.
Proof.
  intros Hl Ha. exec_run; zbool; try done.
Qed.

End Proofs.

(** ** What the interface leaves in place, given the collaborator's laws *)

Section Kept.
Context {D : Type} `{!Pmd D}.
Context `{!PmdLaws D}.

Ltac kept_solve :=
  solve [ apply layout_kept_refl
        | eapply pmd_obj_alloc_kept; eauto
        | eapply pmd_obj_realloc_kept; eauto
        | eapply pmd_obj_find_get_kept; eauto
        | eapply pmd_obj_put_kept; eauto
        | eapply pmd_obj_commit_kept; eauto
        | eapply pmd_obj_abort_kept; eauto
        | eapply pmd_obj_delete_kept; eauto ].

(** One call of the interface: a record that is there before and after
    it is kept, unless the call is a successful append to that record. *)
Lemma run_op_kept op w r w' l a b :
  run_op op w = Ret r w' ->
  w_objs w !! l = Some a -> w_objs w' !! l = Some b ->
  layout_kept a b \/
  exists mp iov iovcnt len,
    op = Op_write mp (Some l) iov iovcnt len /\ r = 0 /\ len <> 0 /\
    committed (to_u8 (eld_state a)) = false /\
    b = set_eld_mblen (to_u32 (eld_mblen a + len)) a.
Proof.
  intros Hrun Ha Hb.
  destruct op; simpl in Hrun.
  8: {
    exec_run; try solve [ left; apply layout_kept_refl ].
    all: match goal with
         | H : <[?p:=_]> _ !! ?q = Some _ |- _ =>
             destruct (decide (p = q)) as [->|Hne];
             [ rewrite lookup_insert_eq in H | rewrite lookup_insert_ne in H by done ]
         end; simplify_eq/=; try solve [ left; apply layout_kept_refl ].
    all: right; do 4 eexists; split; [reflexivity|]; repeat split; try done.
    all: try (apply Z.eqb_neq; done).
    all: try (by apply Z.eqb_eq).
    all: try (by apply negb_true_iff). }
  all: left; exec_run; kept_solve.
Qed.
(** A commit that returned 0 left the record in place, kept and
    committed. *)
Lemma commit_success_inv mp l lay (w wc : world D) :
  w_objs w !! l = Some lay -> mblock_objid (eld_objid lay) = true ->
  mblock_commit mp (Some l) w = Ret 0 wc ->
  exists layc, w_objs wc !! l = Some layc /\ layout_kept lay layc /\
               committed (to_u8 (eld_state layc)) = true.
Proof.
  intros Hl Hid Hc.
  exec_run; zbool; try congruence; try lia; subst.
  all: match goal with
       | H : pmd_obj_commit _ _ _ _ = _ |- _ =>
           destruct (pmd_obj_commit_done _ _ _ _ _ _ H) as (b & Hb & Hcb);
           [eauto|];
           exists b; repeat split; try done;
           eapply pmd_obj_commit_kept; eauto
       end.
Qed.

(** A committed record that stays in place is kept by any sequence of
    calls: by induction on the sequence, no call being an append to it. *)
Lemma still_held_kept l (w w' : world D) a :
  still_held l w w' ->
  w_objs w !! l = Some a -> committed (to_u8 (eld_state a)) = true ->
  exists b, w_objs w' !! l = Some b /\ layout_kept a b.
Proof.
  induction 1 as [w|w1 w2 op r w3 Hh IH Hrun [c Hc]]; intros Ha Hca.
  - exists a. split; [done|]. apply layout_kept_refl.
  - destruct (IH Ha Hca) as (b & Hb & Hab).
    exists c. split; [done|].
    destruct (run_op_kept _ _ _ _ _ _ _ Hrun Hb Hc) as [Hbc|Hw].
    + eapply layout_kept_trans; eauto.
    + destruct Hw as (?&?&?&?&_&_&_&Hnc&_).
      destruct Hab as (_&_&_&_&Hcom). rewrite Hcom in Hnc; done.
Qed.

(** ** The written length moves by appends only (C1) *)

(** C1.  On a handle that resolves to an uncommitted mblock, a write of
    [len > 0] that returns 0 has issued one transfer, at the offset
    [eld_mblen] held before the call, between taking and releasing the
    write lock, and leaves [eld_mblen] larger by exactly [len].  And no
    other call of the interface changes the [eld_mblen] of a record: if
    a record is there before and after a call and its [eld_mblen]
    differs, the call was a write on that record, of non-zero length,
    that returned 0, and the record was not committed. *)
Theorem write_advances_written_len_and_nothing_else_does :
  (forall mp mbh iov iovcnt len (w w' : world D) l lay,
     resolves w mbh l lay ->
     committed (to_u8 (eld_state lay)) = false ->
     is_u32 (eld_mblen lay) -> is_u64 len -> is_int iovcnt -> 0 < len ->
     mblock_write mp mbh iov iovcnt len w = Ret 0 w' ->
     exists lay',
       w_objs w' !! l = Some lay' /\
       eld_mblen lay' = eld_mblen lay + len /\
       w_calls w' =
         w_calls w ++
         [Call_obj_wrlock l;
          Call_layout_rw l iovcnt (eld_mblen lay)
            (if pdi_fua (pmd_layout_pd_get mp lay) then REQ_FUA else 0)
            MPOOL_OP_WRITE;
          Call_obj_wrunlock l]) /\
  (forall op (w : world D) r w' l a b,
     run_op op w = Ret r w' ->
     w_objs w !! l = Some a -> w_objs w' !! l = Some b ->
     eld_mblen b <> eld_mblen a ->
     exists mp iov iovcnt len,
       op = Op_write mp (Some l) iov iovcnt len /\ r = 0 /\ len <> 0 /\
       committed (to_u8 (eld_state a)) = false).
Proof.
  split.
  - intros * Hres Hnc Hm Hlen Hi Hpos Hw.
    destruct (mblock_write_appends _ _ _ _ _ _ _ _ _ Hres Hm Hlen Hi Hpos Hw)
      as (_ & Hobjs & Hcalls).
    eexists. rewrite Hobjs, lookup_insert_eq. done.
  - intros * Hrun Ha Hb Hne.
    destruct (run_op_kept _ _ _ _ _ _ _ Hrun Ha Hb) as [(_&Hm&_)|Hw]; [done|].
    destruct Hw as (mp & iov & iovcnt & len & -> & -> & Hlen & Hnc & _).
    eauto 10.
Qed.

(** ** After commit (C2) *)

(** C2, amended.  On a committed mblock no write changes a record or
    the collaborator's state, and none issues a transfer (at most the
    write lock is taken and released).  A write returns EINVAL when
    validation rejects it, 0 when its length is 0, and EALREADY
    otherwise: a write of non-zero length that passes validation and
    the asserted page contract returns EALREADY.  And as long as the
    record stays in place, whatever calls of the interface follow,
    [mblock_get_props] reports the written length and the capacity it
    reported before them. *)
Theorem commit_freezes_written_len mp mbh l lay (w : world D) :
  resolves w mbh l lay ->
  committed (to_u8 (eld_state lay)) = true ->
  (forall iov iovcnt len,
     (w_objs (final (mblock_write mp mbh iov iovcnt len w)) = w_objs w /\
      w_pmd (final (mblock_write mp mbh iov iovcnt len w)) = w_pmd w /\
      Forall (fun c => c = Call_obj_wrlock l \/ c = Call_obj_wrunlock l)
        (drop (length (w_calls w))
           (w_calls (final (mblock_write mp mbh iov iovcnt len w))))) /\
     (forall r w', mblock_write mp mbh iov iovcnt len w = Ret r w' ->
        r = merr EINVAL \/ (r = 0 /\ len = 0) \/
        (r = merr EALREADY /\ len <> 0)) /\
     (mblock_rw_argcheck mp l (eld_mblen lay) MPOOL_OP_WRITE len w = Ret 0 w ->
      len <> 0 -> PAGE_ALIGNED len = true ->
      to_u64 iovcnt = Z.shiftr len PAGE_SHIFT ->
      PAGE_ALIGNED (eld_mblen lay) = true ->
      exists w', mblock_write mp mbh iov iovcnt len w =
                   Ret (merr EALREADY) w')) /\
  (forall w', still_held l w w' ->
     forall mp' p p', exists q q' w1 w1',
       mblock_get_props mp' mbh (Some p) w = Ret (0, Some q) w1 /\
       mblock_get_props mp' mbh (Some p') w' = Ret (0, Some q') w1' /\
       mpr_write_len q' = mpr_write_len q /\
       mpr_alloc_cap q' = mpr_alloc_cap q).
Proof.
  intros (-> & Hl & Hid)%resolves_inv Hc. split.
  - intros iov iovcnt len. by apply write_on_committed.
  - intros w' Hh mp' p p'.
    destruct (still_held_kept _ _ _ _ Hh Hl Hc) as (b & Hb & Hobj & Hm & Hcap & _).
    destruct (mblock_get_props_reports mp' l lay p w Hl Hid)
      as (q & w1 & Hq & Hq1 & Hq2 & _).
    destruct (mblock_get_props_reports mp' l b p' w' Hb)
      as (q' & w1' & Hq' & Hq1' & Hq2' & _); [by rewrite Hobj|].
    exists q, q', w1, w1'. repeat split; try done; congruence.
Qed.

(** ** Reads and commit (C3) *)

(** C3, amended.  On an uncommitted mblock no read issues a transfer or
    changes anything (at most the read lock is taken and released).  A
    read returns EINVAL when validation rejects it, 0 when its length is
    0, and EAGAIN otherwise: a read of non-zero length that passes
    validation and the asserted page contract returns EAGAIN.  After a
    commit that returned 0, the same read takes the read lock, issues
    the transfer (at the offset converted to the callee's [u64]) and
    returns the transfer's result. *)
Theorem read_is_gated_by_commit mp mbh iov iovcnt boff len (w : world D) l lay :
  resolves w mbh l lay ->
  committed (to_u8 (eld_state lay)) = false ->
  (w_objs (final (mblock_read (Some mp) mbh iov iovcnt boff len w)) = w_objs w /\
   w_pmd (final (mblock_read (Some mp) mbh iov iovcnt boff len w)) = w_pmd w /\
   Forall (fun c => c = Call_obj_rdlock l \/ c = Call_obj_rdunlock l)
     (drop (length (w_calls w))
        (w_calls (final (mblock_read (Some mp) mbh iov iovcnt boff len w))))) /\
  (forall r w', mblock_read (Some mp) mbh iov iovcnt boff len w = Ret r w' ->
     r = merr EINVAL \/ (r = 0 /\ len = 0) \/ (r = merr EAGAIN /\ len <> 0)) /\
  (mblock_rw_argcheck mp l boff MPOOL_OP_READ len w = Ret 0 w ->
   len <> 0 -> PAGE_ALIGNED len = true ->
   to_u64 iovcnt = Z.shiftr len PAGE_SHIFT ->
   (exists w', mblock_read (Some mp) mbh iov iovcnt boff len w =
                 Ret (merr EAGAIN) w') /\
   (forall wc, mblock_commit mp mbh w = Ret 0 wc ->
      exists layc w',
        w_objs wc !! l = Some layc /\
        mblock_read (Some mp) mbh iov iovcnt boff len wc =
          Ret (pmd_layout_rw mp layc iov iovcnt (to_u64 boff) 0 MPOOL_OP_READ
                             (w_pmd wc)).1 w' /\
        w_calls w' =
          w_calls wc ++ [Call_obj_rdlock l;
                         Call_layout_rw l iovcnt (to_u64 boff) 0 MPOOL_OP_READ;
                         Call_obj_rdunlock l])).
Proof.
  intros (-> & Hl & Hid)%resolves_inv Hnc.
  destruct (read_on_uncommitted mp l lay iov iovcnt boff len w Hl Hid Hnc)
    as (Hq & Hr & Hv).
  split; [done|]. split; [done|].
  intros Ha Hlen Hal Hio. split; [by apply Hv|].
  intros wc Hcommit.
  destruct (commit_success_inv _ _ _ _ _ Hl Hid Hcommit)
    as (layc & Hlc & (Hobj & Hm & Hcap & _) & Hcc).
  destruct (argcheck_read_passes _ _ _ _ _ _ Hl Ha) as (Hab & Hb & Hp).
  destruct (read_on_committed mp l layc iov iovcnt boff len wc)
    as (w' & Hrd & Hcalls & _); try done.
  - by rewrite Hobj.
  - by rewrite Hcap.
  - by rewrite Hm.
  - eauto.
Qed.

End Kept.

(** ** Validation of arguments *)

Section Checks.
Context {D : Type} `{!Pmd D}.

(** ** Transfers of length zero (C4) *)

(** C4, amended.  On a handle that resolves, a write or a read of
    length 0 whose arguments pass [mblock_rw_argcheck] returns 0 and is
    a no-op, whatever the state flags of the object.  Validation is not
    skipped for it, so the offset matters: a zero-length read passes
    validation exactly when its offset is page-aligned, below the
    capacity and, as an unsigned 64-bit value, not beyond the written
    length, and fails with EINVAL when the offset is not page-aligned,
    or is at or past the capacity, or is beyond the written length.
    Whatever the outcome, a zero-length call takes no lock, makes no
    transfer and changes no record. *)
Theorem zero_length_transfer_is_no_op_once_validated
    mp mbh iov iovcnt boff w l lay :
  resolves w mbh l lay ->
  (mblock_rw_argcheck mp l (eld_mblen lay) MPOOL_OP_WRITE 0 w = Ret 0 w ->
   exists w', mblock_write mp mbh iov iovcnt 0 w = Ret 0 w' /\
              same_but_klog w w') /\
  (mblock_rw_argcheck mp l boff MPOOL_OP_READ 0 w = Ret 0 w ->
   exists w', mblock_read (Some mp) mbh iov iovcnt boff 0 w = Ret 0 w' /\
              same_but_klog w w') /\
  same_but_klog w (final (mblock_write mp mbh iov iovcnt 0 w)) /\
  same_but_klog w (final (mblock_read (Some mp) mbh iov iovcnt boff 0 w)) /\
  (mblock_rw_argcheck mp l boff MPOOL_OP_READ 0 w = Ret 0 w <->
   PAGE_ALIGNED boff = true /\
   boff < to_u32 (pmd_layout_cap_get mp lay) /\
   to_u64 boff <= eld_mblen lay) /\
  (PAGE_ALIGNED boff = false \/
   to_u32 (pmd_layout_cap_get mp lay) <= boff \/
   eld_mblen lay < to_u64 boff ->
   exists w', mblock_read (Some mp) mbh iov iovcnt boff 0 w =
                Ret (merr EINVAL) w' /\
              same_but_klog w w').
Proof.
  intros (-> & Hl & Hid)%resolves_inv.
  unfold same_but_klog.
  split; [|split; [|split; [|split; [|split]]]].
  - intros Ha. exec_run; zbool; try done; try congruence; try lia; eauto.
  - intros Ha. exec_run; zbool; try done; try congruence; try lia; eauto.
  - repeat split; exec_run; done.
  - repeat split; exec_run; done.
  - split.
    + intros Ha. exec_run; rewrite ?Z.add_0_r in *; zbool; try done.
    + intros (Hal & Hcap & Hend).
      exec_run; rewrite ?Z.add_0_r in *; zbool; try done; try congruence;
        try lia.
  - intros Hbad.
    exec_run; rewrite ?Z.add_0_r in *; zbool; try done.
    all: try (destruct Hbad as [Hbad|[Hbad|Hbad]]; try congruence; lia).
    all: eauto.
Qed.

(** ** Reading past the written length (C5) *)

Lemma mblock_read_past_written mp mbh iov iovcnt boff len (w : world D) l lay :
  resolves w mbh l lay ->
  0 <= boff + len < 2 ^ 64 ->
  boff + len > eld_mblen lay ->
  exists w', mblock_read (Some mp) mbh iov iovcnt boff len w =
               Ret (merr EINVAL) w' /\
             same_but_klog w w'.
Proof.
  intros (-> & Hl & Hid)%resolves_inv Hsum Hpast.
  assert (to_u64 (boff + len) = boff + len) as Hu
    by (apply to_u64_small; unfold is_u64; lia).
  unfold same_but_klog.
  exec_run; rewrite ?Hu in *; zbool; try done; try congruence; try lia; eauto.
Qed.

(** C5, amended.  A read whose offset plus length exceeds the written
    length (the sum not wrapping: at least 0 and below 2^64) fails with
    EINVAL for every length and every offset: no length is exempt from
    the check, and nothing but kernel-log messages is left behind.  When the offset is page-aligned
    and below the capacity, it is the check against the written length
    that rejects the read, and that check leaves no message either: the
    state after [mblock_rw_argcheck] is the state before it. *)
Theorem read_past_written_len_is_rejected_whatever_the_length
    mp mbh iov iovcnt boff len (w : world D) l lay :
  resolves w mbh l lay ->
  0 <= boff + len < 2 ^ 64 ->
  boff + len > eld_mblen lay ->
  (exists w', mblock_read (Some mp) mbh iov iovcnt boff len w =
                Ret (merr EINVAL) w' /\
              same_but_klog w w') /\
  (PAGE_ALIGNED boff = true ->
   boff < to_u32 (pmd_layout_cap_get mp lay) ->
   mblock_rw_argcheck mp l boff MPOOL_OP_READ len w = Ret (merr EINVAL) w).
Proof.
  intros Hres Hsum Hpast.
  split; [by apply (mblock_read_past_written _ _ _ _ _ _ _ l lay)|].
  destruct (resolves_inv _ _ _ _ Hres) as (_ & Hl & _).
  intros Hal Hcap.
  assert (to_u64 (boff + len) = boff + len) as Hu
    by (apply to_u64_small; unfold is_u64; lia).
  exec_run; rewrite ?Hu in *; zbool; try done; try congruence; try lia.
  all: by destruct w.
Qed.

(** ** Validation of a write (C6) *)

(** X1.  As long as the 64-bit sum does not wrap, a write at an append
    offset that is not a multiple of the optimal transfer size, or that
    would run past the capacity, is rejected with EINVAL and leaves
    nothing but kernel-log messages. *)
Lemma mblock_write_rejects mp mbh iov iovcnt len w l lay :
  resolves w mbh l lay ->
  is_u32 (eld_mblen lay) -> 0 <= len ->
  eld_mblen lay + len < 2 ^ 64 ->
  mblock_optimal_iosz_get mp lay <> 0 ->
  eld_mblen lay mod mblock_optimal_iosz_get mp lay <> 0 \/
  eld_mblen lay + len > to_u32 (pmd_layout_cap_get mp lay) ->
  exists w', mblock_write mp mbh iov iovcnt len w = Ret (merr EINVAL) w' /\
             same_but_klog w w'.
Proof.
  intros (-> & Hl & Hid)%resolves_inv Hm Hlen Hsum Hopt Hbad.
  assert (to_u64 (len + eld_mblen lay) = eld_mblen lay + len) as Hu.
  { rewrite Z.add_comm. apply to_u64_small. unfold is_u64, is_u32 in *. lia. }
  assert (to_u64 (eld_mblen lay) = eld_mblen lay) as Hu'.
  { apply to_u64_small. unfold is_u64, is_u32 in *. lia. }
  unfold same_but_klog.
  exec_run; rewrite ?Hu, ?Hu' in *; zbool; try done; try congruence; try lia;
    eauto.
Qed.

(** X2.  The append-offset check of [mblock_rw_argcheck]: a write
    offset other than the written length is rejected with EINVAL, and
    the rejection is logged.  [mblock_write] passes [eld_mblen] itself,
    so on its path this check never fires: whatever the handle and the
    arguments, and however the call ends, [mblock_write] does not log
    that message. *)
Lemma mblock_rw_argcheck_write_offset mp l lay boff len (w : world D) :
  w_objs w !! l = Some lay ->
  (boff <> eld_mblen lay ->
   exists w', mblock_rw_argcheck mp l boff MPOOL_OP_WRITE len w =
                Ret (merr EINVAL) w' /\
              same_but_klog w w' /\
              w_klog w' =
                w_klog w ++
                [{| k_level := K_ERR;
                    k_fmt := "mpool %s write boff (%ld) != eld_mblen (%d)" |}]) /\
  (forall mbh iov iovcnt,
     ~ In {| k_level := K_ERR;
             k_fmt := "mpool %s write boff (%ld) != eld_mblen (%d)" |}
          (drop (length (w_klog w))
             (w_klog (final (mblock_write mp mbh iov iovcnt len w))))).
Proof.
  intros Hl. split.
  - intros Hne. unfold same_but_klog.
    exec_run; zbool; try done; eauto 10.
  - intros mbh iov iovcnt Hin.
    exec_run; zbool; try done.
    all: rewrite <- ?app_assoc, ?drop_app_length, ?drop_all in Hin;
      simpl in Hin.
    all: repeat (destruct Hin as [Hin|Hin]; try discriminate Hin); done.
Qed.

End Checks.

(** C6.  The bound check of a write adds [len] and [boff] as 64-bit
    unsigned values.  With 4096 bytes written and a length of
    2^64 - 4096 the sum wraps to 0: the request runs far past the
    capacity of 8192, validation returns 0 instead of EINVAL, and the
    call goes on to the assertions, where
    [assert(iovcnt == (len >> PAGE_SHIFT))] stops it. *)
Theorem write_bound_check_wraps :
  resolves (world_of (lay_at 0 4096) dev_ok) (Some 1%positive) 1%positive
           (lay_at 0 4096) /\
  is_u64 (2 ^ 64 - 4096) /\
  eld_mblen (lay_at 0 4096) + (2 ^ 64 - 4096) >
    to_u32 (pmd_layout_cap_get mp0 (lay_at 0 4096)) /\
  mblock_rw_argcheck mp0 1%positive (eld_mblen (lay_at 0 4096))
      MPOOL_OP_WRITE (2 ^ 64 - 4096) (world_of (lay_at 0 4096) dev_ok) =
    Ret 0 (world_of (lay_at 0 4096) dev_ok) /\
  mblock_write mp0 (Some 1%positive) one_page 1 (2 ^ 64 - 4096)
      (world_of (lay_at 0 4096) dev_ok) =
    Trap Assert_failed (world_of (lay_at 0 4096) dev_ok).
Proof.
  split; [apply resolves_intro; reflexivity|].
  split; [unfold is_u64; lia|].
  split; [vm_compute; reflexivity|].
  split; vm_compute; reflexivity.
Qed.


(** ** Lifecycle and release *)

Section Lifecycle.
Context {D : Type} `{!Pmd D}.

(** ** Commit on a device without durable writes (C7) *)

(** C7.  When the handle resolves and the device of the layout has no
    FUA, [mblock_commit] calls [pd_dev_flush] first.  If the flush fails,
    the commit returns the flush error, the call log holds the flush and
    nothing after it ([pmd_obj_commit] is not called) and the records are
    untouched, so the committed flag is as it was.  If the flush
    succeeds, [pmd_obj_commit] is the next call and its result is
    returned. *)
Theorem commit_flushes_first mp mbh w l lay :
  resolves w mbh l lay ->
  pdi_fua (pmd_layout_pd_get mp lay) = false ->
  let pd := pmd_layout_pd_get mp lay in
  let flushed := pd_dev_flush pd (w_pmd w) in
  (flushed.1 <> 0 ->
   exists w',
     mblock_commit mp mbh w = Ret flushed.1 w' /\
     w_calls w' = w_calls w ++ [Call_dev_flush pd] /\
     w_objs w' = w_objs w /\ w_pmd w' = flushed.2) /\
  (flushed.1 = 0 ->
   exists r w',
     mblock_commit mp mbh w = Ret r w' /\
     w_calls w' = w_calls w ++ [Call_dev_flush pd; Call_obj_commit l] /\
     r = (pmd_obj_commit mp l (w_objs w) flushed.2).1.1).
Proof.
  intros (-> & Hl & Hid)%resolves_inv Hfua pd flushed.
  subst pd flushed.
  split; intros Hf.
  - exec_run; zbool; try done; try congruence.
    all: eexists; (split; [reflexivity|]); done.
  - exec_run; zbool; try done; try congruence.
    all: do 2 eexists; (split; [reflexivity|]); simpl;
      rewrite <- ?app_assoc; split; try done.
Qed.

(** ** Identifiers of another type (C8) *)

(** C8.  [mblock_objid] holds exactly of the non-zero identifiers whose
    type is [OMF_OBJ_MBLOCK].  For any other identifier [mblock_realloc]
    and [mblock_find_get] return EINVAL in the state they were called
    in: the directory is not called, no handle is produced ([mblock_realloc]
    leaves the caller's handle as it was, [mblock_find_get] has set it
    to NULL). *)
Theorem non_mblock_id_is_rejected :
  (forall objid,
     mblock_objid objid = true <->
     objid <> 0 /\ pmd_objid_type objid = OMF_OBJ_MBLOCK) /\
  (forall objid mp mclassp spare mbh prop (w : world D),
     mblock_objid objid = false ->
     mblock_realloc mp objid mclassp spare mbh prop w =
       Ret (merr EINVAL, prop, mbh) w) /\
  (forall objid mp which prop mbh (w : world D),
     mblock_objid objid = false ->
     mblock_find_get mp objid which prop mbh w =
       Ret (merr EINVAL, prop, None) w).
Proof.
  split; [|split].
  - intros objid. unfold mblock_objid.
    rewrite andb_true_iff, negb_true_iff, Z.eqb_neq, Z.eqb_eq. done.
  - intros * Hid. unfold mblock_realloc. by rewrite Hid.
  - intros * Hid. unfold mblock_find_get. by rewrite Hid.
Qed.

(** ** Validation comes first (C9) *)

(** C9.  A write or a read whose arguments [mblock_rw_argcheck] rejects
    returns that error, which is EINVAL, and nothing else has happened:
    the records (so [eld_mblen] too) and the collaborator's state are
    what they were, and the call log is what it was, so no lock was
    taken and no transfer attempted.  Only kernel-log messages were
    added. *)
Theorem validation_failure_has_no_side_effect
    mp mbh iov iovcnt boff len w l lay :
  resolves w mbh l lay ->
  (forall err w1,
     mblock_rw_argcheck mp l (eld_mblen lay) MPOOL_OP_WRITE len w = Ret err w1 ->
     err <> 0 ->
     err = merr EINVAL /\
     exists w', mblock_write mp mbh iov iovcnt len w = Ret err w' /\
                same_but_klog w w') /\
  (forall err w1,
     mblock_rw_argcheck mp l boff MPOOL_OP_READ len w = Ret err w1 ->
     err <> 0 ->
     err = merr EINVAL /\
     exists w', mblock_read (Some mp) mbh iov iovcnt boff len w = Ret err w' /\
                same_but_klog w w').
Proof.
  intros (-> & Hl & Hid)%resolves_inv.
  unfold same_but_klog.
  split; intros err w1 Ha Hne.
  - exec_run; try done; try congruence; (split; [reflexivity | eauto]).
  - exec_run; try done; try congruence; (split; [reflexivity | eauto]).
Qed.

(** ** Releasing a handle that does not resolve (C10) *)

(** C10.  [mblock_put] on a NULL handle returns in the state it was
    called in.  On a handle to a record whose identifier is not an
    mblock identifier it returns with the same records (reference counts
    included), the same collaborator state and the same call log:
    [pmd_obj_put] is not called.  The one trace it can leave is the
    [WARN_ONCE] diagnostic of [mblock2layout]. *)
Theorem mblock_put_of_bad_handle_is_no_op mp w :
  mblock_put mp None w = Ret tt w /\
  (forall l lay,
     w_objs w !! l = Some lay ->
     mblock_objid (eld_objid lay) = false ->
     exists w', mblock_put mp (Some l) w = Ret tt w' /\
                same_but_klog w w' /\
                Forall (fun m => k_level m = K_WARN_ONCE)
                       (drop (length (w_klog w)) (w_klog w'))).
Proof.
  split; [reflexivity|].
  intros l lay Hl Hid. unfold same_but_klog.
  exec_run; eexists; (split; [reflexivity|]); simpl; repeat split.
  - rewrite drop_app_length. repeat constructor.
  - rewrite drop_all. constructor.
Qed.

(** ** Handles that do not resolve *)

(** X3.  Every function that takes a handle and returns an error value
    returns EINVAL for a handle that does not resolve, without calling
    the collaborator and without touching a record. *)
Lemma unresolved_handle_is_rejected mp mbh iov iovcnt boff len prop propx
    (w : world D) :
  unresolved w mbh ->
  (exists w', mblock_write mp mbh iov iovcnt len w = Ret (merr EINVAL) w' /\
              same_but_klog w w') /\
  (exists w', mblock_read (Some mp) mbh iov iovcnt boff len w =
                Ret (merr EINVAL) w' /\ same_but_klog w w') /\
  (exists w', mblock_commit mp mbh w = Ret (merr EINVAL) w' /\
              same_but_klog w w') /\
  (exists w', mblock_abort mp mbh w = Ret (merr EINVAL) w' /\
              same_but_klog w w') /\
  (exists w', mblock_delete mp mbh w = Ret (merr EINVAL) w' /\
              same_but_klog w w') /\
  (exists w', mblock_get_props mp mbh prop w = Ret (merr EINVAL, prop) w' /\
              same_but_klog w w') /\
  (exists w', mblock_get_props_ex mp mbh propx w = Ret (merr EINVAL, propx) w' /\
              same_but_klog w w').
Proof.
  unfold same_but_klog.
  intros [->|(l & lay & -> & Hl & Hid)]; repeat split.
  all: exec_run; eauto.
Qed.

(** ** The written length stays within the capacity *)

(** X4.  A write that returns leaves the written length of its mblock
    where it was or moves it up by [len], and never past the capacity. *)
Lemma mblock_write_keeps_bounds mp mbh iov iovcnt len (w : world D) l lay
    r w' lay' :
  resolves w mbh l lay ->
  is_u32 (eld_mblen lay) -> is_u64 len -> is_int iovcnt ->
  eld_mblen lay <= to_u32 (pmd_layout_cap_get mp lay) ->
  mblock_write mp mbh iov iovcnt len w = Ret r w' ->
  w_objs w' !! l = Some lay' ->
  eld_mblen lay <= eld_mblen lay' <= to_u32 (pmd_layout_cap_get mp lay) /\
  (eld_mblen lay' = eld_mblen lay \/
   (r = 0 /\ eld_mblen lay' = eld_mblen lay + len)).
Proof.
  intros (-> & Hl & Hid)%resolves_inv Hm Hlen Hi Hcap Hw Hl'.
  exec_run; try lia.
  all: rewrite lookup_insert_eq in Hl'; simplify_eq/=.
  all: erewrite write_no_wrap by eassumption.
  all: zbool; subst.
  all: match goal with
       | H : to_u64 ?i = Z.shiftr ?n _, Hi : is_int ?i, Hn : is_u64 ?n |- _ =>
           pose proof (asserted_len_small _ _ Hi Hn H)
       end.
  all: match goal with
       | H : to_u64 (?n + ?m) <= _ |- _ =>
           rewrite (to_u64_small (n + m)) in H
             by (unfold is_u64, is_u32 in *; lia)
       end.
  all: unfold is_u64, is_u32 in *; lia.
Qed.

End Lifecycle.

(** ** Locks, frames and delegation *)

Section Calls.
Context {D : Type} `{!Pmd D}.

Ltac calls_split :=
  first [ exists []; split; [by rewrite app_nil_r | reflexivity]
        | eexists; split;
          [ rewrite <- ?app_assoc; reflexivity
          | simpl; rewrite ?bool_decide_eq_true_2 by done; reflexivity ] ].

(** X5.  Whatever exported function is called and whatever it returns,
    the calls it has made to the collaborator when it returns take and
    release locks in matching pairs, leave no lock held, issue a
    transfer only under the lock of the layout transferred (a read
    under the read lock, a write under the write lock), and make every
    directory or flush call with no lock held. *)
Theorem locks_are_released_and_transfers_locked op (w : world D) r w' :
  run_op op w = Ret r w' ->
  exists cs, w_calls w' = w_calls w ++ cs /\ lock_walk [] cs = Some [].
Proof.
  intros Hrun. destruct op; simpl in Hrun.
  all: exec_run; calls_split.
Qed.

(** X6.  [mblock_read], [mblock_get_props] and [mblock_get_props_ex]
    change no record, however they end.  [mblock_write] changes no
    record but the one of its handle, and of that one nothing but the
    written length: identifier, reference count, state and layout
    descriptor are what they were. *)
Theorem frame_of_reads_queries_and_writes mp mpo mbh iov iovcnt boff len
    prop propx (w : world D) :
  w_objs (final (mblock_read mpo mbh iov iovcnt boff len w)) = w_objs w /\
  w_objs (final (mblock_get_props mp mbh prop w)) = w_objs w /\
  w_objs (final (mblock_get_props_ex mp mbh propx w)) = w_objs w /\
  (forall l, mbh <> Some l ->
     w_objs (final (mblock_write mp mbh iov iovcnt len w)) !! l =
     w_objs w !! l) /\
  (forall l lay lay',
     w_objs w !! l = Some lay ->
     w_objs (final (mblock_write mp mbh iov iovcnt len w)) !! l = Some lay' ->
     eld_objid lay' = eld_objid lay /\ eld_ref lay' = eld_ref lay /\
     eld_state lay' = eld_state lay /\ eld_ld lay' = eld_ld lay).
Proof.
  split; [|split; [|split; [|split]]].
  - exec_run; done.
  - exec_run; done.
  - exec_run; done.
  - intros l Hne. exec_run; try done.
    all: rewrite lookup_insert_ne; [done | congruence].
  - intros l lay lay' Hl Hl'. exec_run; try done.
    all: match goal with
         | H : <[?p:=_]> _ !! ?q = Some _ |- _ =>
             destruct (decide (p = q)) as [->|Hne];
             [ rewrite lookup_insert_eq in H
             | rewrite lookup_insert_ne in H by done ]
         end; simplify_eq/=; done.
Qed.

(** X7.  On a handle that resolves, [mblock_abort], [mblock_delete] and
    [mblock_put] make one call, to [pmd_obj_abort], [pmd_obj_delete] and
    [pmd_obj_put]: no flush, no lock, no transfer.  The records and the
    collaborator's state are as that call left them, and abort and
    delete return its result as it is. *)
Theorem abort_delete_put_are_delegated mp mbh (w : world D) l lay :
  resolves w mbh l lay ->
  (forall err objs' d',
     pmd_obj_abort mp l (w_objs w) (w_pmd w) = (err, objs', d') ->
     exists w',
       mblock_abort mp mbh w = Ret err w' /\
       w_objs w' = objs' /\ w_pmd w' = d' /\
       w_calls w' = w_calls w ++ [Call_obj_abort l]) /\
  (forall err objs' d',
     pmd_obj_delete mp l (w_objs w) (w_pmd w) = (err, objs', d') ->
     exists w',
       mblock_delete mp mbh w = Ret err w' /\
       w_objs w' = objs' /\ w_pmd w' = d' /\
       w_calls w' = w_calls w ++ [Call_obj_delete l]) /\
  (forall objs' d',
     pmd_obj_put mp l (w_objs w) (w_pmd w) = (objs', d') ->
     exists w',
       mblock_put mp mbh w = Ret tt w' /\
       w_objs w' = objs' /\ w_pmd w' = d' /\
       w_calls w' = w_calls w ++ [Call_obj_put l]).
Proof.
  intros (-> & Hl & Hid)%resolves_inv.
  repeat split.
  all: intros * Hdir; exec_run; zbool; subst; try congruence.
  all: eexists; (split; [reflexivity|]); done.
Qed.

(** X8.  When the device of the layout has FUA, [mblock_commit] does
    not flush: [pmd_obj_commit] is its one call, and its result is
    returned. *)
Theorem commit_on_durable_device_does_not_flush mp mbh (w : world D) l lay
    err objs' d' :
  resolves w mbh l lay ->
  pdi_fua (pmd_layout_pd_get mp lay) = true ->
  pmd_obj_commit mp l (w_objs w) (w_pmd w) = (err, objs', d') ->
  exists w',
    mblock_commit mp mbh w = Ret err w' /\
    w_objs w' = objs' /\ w_pmd w' = d' /\
    w_calls w' = w_calls w ++ [Call_obj_commit l].
Proof.
  intros (-> & Hl & Hid)%resolves_inv Hfua Hdir.
  exec_run; zbool; subst; try congruence.
  all: eexists; (split; [reflexivity|]); done.
Qed.

End Calls.

(** ** New handles and their properties *)

Section Handles.
Context {D : Type} `{!Pmd D}.

Ltac same_call :=
  repeat match goal with
    | H : ?t = (_, _), H' : ?t = (_, _) |- _ => rewrite H in H'; simplify_eq
    end.

(** X9.  [mblock_alloc] without a pool returns EINVAL and leaves the
    caller's handle as it was.  With a pool it makes one call to
    [pmd_obj_alloc], for an object of type mblock with capacity target
    0.  When that call fails its error is returned, and when it
    succeeds without a layout the result is EBUG; in both cases the
    handle is NULL, the properties are untouched, and nothing else was
    called or logged.  When it hands out a layout the result is 0, the
    handle is that layout, and the properties are filled in exactly when
    the caller asked for them, under the read lock. *)
Theorem mblock_alloc_outcome mp mclassp spare mbh prop (w : world D)
    err lo objs' d' :
  pmd_obj_alloc mp OMF_OBJ_MBLOCK {| moc_captgt := 0; moc_spare := spare |}
    mclassp (w_objs w) (w_pmd w) = (err, lo, objs', d') ->
  mblock_alloc None mclassp spare mbh prop w = Ret (merr EINVAL, prop, mbh) w /\
  (err <> 0 \/ lo = None ->
   mblock_alloc (Some mp) mclassp spare mbh prop w =
     Ret (if err =? 0 then merr EBUG else err, prop, None)
         (World objs' d'
            (w_calls w ++
             [Call_obj_alloc OMF_OBJ_MBLOCK
                {| moc_captgt := 0; moc_spare := spare |} mclassp])
            (w_klog w))) /\
  (forall l, err = 0 -> lo = Some l -> is_Some (objs' !! l) ->
   exists q w',
     mblock_alloc (Some mp) mclassp spare mbh prop w = Ret (0, q, Some l) w' /\
     (is_Some q <-> is_Some prop) /\
     w_objs w' = objs' /\ w_pmd w' = d' /\ w_klog w' = w_klog w /\
     w_calls w' =
       w_calls w ++
       Call_obj_alloc OMF_OBJ_MBLOCK
         {| moc_captgt := 0; moc_spare := spare |} mclassp ::
       props_calls prop l).
Proof.
  intros Hdir. split; [reflexivity|]. split.
  - intros Hbad. destruct (err =? 0) eqn:Herr.
    all: exec_run; zbool; same_call; try done; try (destruct Hbad; done).
  - intros l -> -> [lay Hl].
    exec_run; zbool; same_call; try done.
    all: do 2 eexists; (split; [reflexivity|]); simpl; rewrite <- ?app_assoc.
    all: repeat split; try done; intros []; done.
Qed.

(** X10.  [mblock_realloc] of an mblock identifier makes one call to
    [pmd_obj_realloc] with that identifier, and none to
    [pmd_obj_alloc].  A failure is returned with the handle NULL and the
    properties untouched, and is logged unless its errno is ENOENT;
    success without a layout is EBUG.  When a layout is handed out the
    result is 0 and the handle is that layout.  Without a pool the
    result is EINVAL and the caller's handle is left as it was. *)
Theorem mblock_realloc_outcome mp objid mclassp spare mbh prop (w : world D)
    err lo objs' d' :
  mblock_objid objid = true ->
  pmd_obj_realloc mp objid {| moc_captgt := 0; moc_spare := spare |}
    mclassp (w_objs w) (w_pmd w) = (err, lo, objs', d') ->
  mblock_realloc None objid mclassp spare mbh prop w =
    Ret (merr EINVAL, prop, mbh) w /\
  (err <> 0 \/ lo = None ->
   mblock_realloc (Some mp) objid mclassp spare mbh prop w =
     Ret (if err =? 0 then merr EBUG else err, prop, None)
         (World objs' d'
            (w_calls w ++
             [Call_obj_realloc objid
                {| moc_captgt := 0; moc_spare := spare |} mclassp])
            (w_klog w ++
             if negb (err =? 0) && negb (merr_errno err =? ENOENT)
             then [{| k_level := K_ERR;
                      k_fmt := "mpool %s, re-allocating mblock 0x%lx failed" |}]
             else []))) /\
  (forall l, err = 0 -> lo = Some l -> is_Some (objs' !! l) ->
   exists q w',
     mblock_realloc (Some mp) objid mclassp spare mbh prop w =
       Ret (0, q, Some l) w' /\
     (is_Some q <-> is_Some prop) /\
     w_objs w' = objs' /\ w_pmd w' = d' /\ w_klog w' = w_klog w /\
     w_calls w' =
       w_calls w ++
       Call_obj_realloc objid
         {| moc_captgt := 0; moc_spare := spare |} mclassp ::
       props_calls prop l).
Proof.
  intros Hid Hdir.
  assert (objid <> 0) as Hnz.
  { unfold mblock_objid in Hid. apply andb_true_iff in Hid as [Hn _].
    by apply negb_true_iff, Z.eqb_neq in Hn. }
  split; [by unfold mblock_realloc; rewrite Hid|]. split.
  - intros Hbad. unfold mblock_realloc. rewrite Hid. simpl.
    destruct (err =? 0) eqn:Herr.
    all: exec_run; zbool; same_call; try done; try (destruct Hbad; done).
    all: rewrite ?app_nil_r; try done.
    all: destruct w; done.
  - intros l -> -> [lay Hl]. unfold mblock_realloc. rewrite Hid. simpl.
    exec_run; zbool; same_call; try done.
    all: do 2 eexists; (split; [reflexivity|]); simpl; rewrite <- ?app_assoc.
    all: repeat split; try done; intros []; done.
Qed.

(** X11.  [mblock_find_get] of an mblock identifier makes one call to
    [pmd_obj_find_get].  When the directory has no such object the
    result is ENOENT, the handle is NULL and the properties are
    untouched; otherwise the result is 0, the handle is the layout
    found, and the properties are filled in exactly when the caller
    asked for them, under the read lock. *)
Theorem mblock_find_get_outcome mp objid which prop mbh (w : world D)
    lo objs' d' :
  mblock_objid objid = true ->
  pmd_obj_find_get mp objid which (w_objs w) (w_pmd w) = (lo, objs', d') ->
  (lo = None ->
   mblock_find_get mp objid which prop mbh w =
     Ret (merr ENOENT, prop, None)
         (World objs' d' (w_calls w ++ [Call_obj_find_get objid which])
            (w_klog w))) /\
  (forall l, lo = Some l -> is_Some (objs' !! l) ->
   exists q w',
     mblock_find_get mp objid which prop mbh w = Ret (0, q, Some l) w' /\
     (is_Some q <-> is_Some prop) /\
     w_objs w' = objs' /\ w_pmd w' = d' /\ w_klog w' = w_klog w /\
     w_calls w' =
       w_calls w ++ Call_obj_find_get objid which :: props_calls prop l).
Proof.
  intros Hid Hdir. split.
  - intros ->. unfold mblock_find_get. rewrite Hid. simpl.
    exec_run; same_call; done.
  - intros l -> [lay Hl]. unfold mblock_find_get. rewrite Hid. simpl.
    exec_run; same_call; try done.
    all: do 2 eexists; (split; [reflexivity|]); simpl; rewrite <- ?app_assoc.
    all: repeat split; try done; intros []; done.
Qed.

(** X12.  The properties that [mblock_alloc], [mblock_realloc] and
    [mblock_find_get] fill in with a new handle are the properties that
    [mblock_get_props] reports on that handle in the state they return
    in, when the record handed out is that of an mblock. *)
Theorem props_of_a_new_handle_are_its_props mp p p' q l lay (w w' : world D) :
  w_objs w' !! l = Some lay -> mblock_objid (eld_objid lay) = true ->
  (forall mclassp spare mbh,
     mblock_alloc (Some mp) mclassp spare mbh (Some p) w =
       Ret (0, q, Some l) w' ->
     exists w'', mblock_get_props mp (Some l) (Some p') w' = Ret (0, q) w'') /\
  (forall objid mclassp spare mbh,
     mblock_realloc (Some mp) objid mclassp spare mbh (Some p) w =
       Ret (0, q, Some l) w' ->
     exists w'', mblock_get_props mp (Some l) (Some p') w' = Ret (0, q) w'') /\
  (forall objid which mbh,
     mblock_find_get mp objid which (Some p) mbh w = Ret (0, q, Some l) w' ->
     exists w'', mblock_get_props mp (Some l) (Some p') w' = Ret (0, q) w'').
Proof.
  intros Hl Hid. repeat split.
  all: intros * Hrun; exec_run; eauto.
Qed.

(** X13.  On a handle that resolves, [mblock_get_props_ex] reports the
    properties that [mblock_get_props] reports, and the zone count of
    the layout descriptor with them.  Both return 0 in the same state:
    the read lock was taken and released and nothing else was called or
    changed.  The optimal write size reported is the one write
    validation uses, and for a state that fits its 8-bit field the
    committed flag reported is non-zero exactly when reads and writes
    take the mblock for committed. *)
Theorem mblock_get_props_ex_agrees mp mbh p px (w : world D) l lay :
  resolves w mbh l lay ->
  exists q w',
    mblock_get_props mp mbh (Some p) w = Ret (0, Some q) w' /\
    mblock_get_props_ex mp mbh px w =
      Ret (0, {| mbx_props := q; mbx_zonecnt := ol_zcnt (eld_ld lay) |}) w' /\
    w_objs w' = w_objs w /\ w_pmd w' = w_pmd w /\
    w_calls w' = w_calls w ++ [Call_obj_rdlock l; Call_obj_rdunlock l] /\
    mpr_optimal_wrsz q = mblock_optimal_iosz_get mp lay /\
    mpr_mclassp q = pdi_mclass (pmd_layout_pd_get mp lay) /\
    (0 <= eld_state lay < 256 ->
     (mpr_iscommitted q <> 0 <-> committed (to_u8 (eld_state lay)) = true)).
Proof.
  intros (-> & Hl & Hid)%resolves_inv.
  assert (0 <= eld_state lay < 256 -> to_u8 (eld_state lay) = eld_state lay)
    as Hu8 by (intros; unfold to_u8; apply Z.mod_small; lia).
  exec_run.
  all: do 2 eexists; (split; [reflexivity|]); simpl; rewrite <- ?app_assoc.
  all: split; [done|]; split; [done|]; split; [done|].
  all: split; [done|]; split; [done|]; split; [done|].
  all: intros Hr; unfold committed; rewrite (Hu8 Hr).
  all: by rewrite negb_true_iff, Z.eqb_neq.
Qed.

End Handles.

(** ** Transfers *)

Section Transfers.
Context {D : Type} `{!Pmd D}.

(** The calls made since the log had the length of [w_calls w], one by
    one. *)
Ltac new_calls H :=
  rewrite <- ?app_assoc, ?drop_app_length, ?drop_all in H; simpl in H;
  repeat (destruct H as [H|H]; simplify_eq/=); try done.

(** X14.  What [mblock_get_props] reports decides whether a write is
    valid: as long as the 64-bit sum does not wrap, validation accepts a
    write of [len] bytes exactly when the written length reported is a
    multiple of the optimal write size reported and the written length
    plus [len] does not exceed the capacity reported. *)
Theorem props_predict_write_validation mp mbh p len (w : world D) l lay q w1 :
  resolves w mbh l lay ->
  mblock_get_props mp mbh (Some p) w = Ret (0, Some q) w1 ->
  is_u32 (eld_mblen lay) -> 0 <= len -> eld_mblen lay + len < 2 ^ 64 ->
  mpr_optimal_wrsz q <> 0 ->
  mblock_rw_argcheck mp l (eld_mblen lay) MPOOL_OP_WRITE len w = Ret 0 w <->
  mpr_write_len q mod mpr_optimal_wrsz q = 0 /\
  mpr_write_len q + len <= mpr_alloc_cap q.
Proof.
  intros (-> & Hl & Hid)%resolves_inv Hq Hm Hlen Hsum Hopt.
  assert (to_u64 (len + eld_mblen lay) = eld_mblen lay + len) as Hu.
  { rewrite Z.add_comm. apply to_u64_small. unfold is_u64, is_u32 in *. lia. }
  assert (to_u64 (eld_mblen lay) = eld_mblen lay) as Hu'.
  { apply to_u64_small. unfold is_u64, is_u32 in *. lia. }
  split.
  - intros Ha. exec_run; rewrite ?Hu, ?Hu' in *; zbool; try done.
  - intros [Hmod Hcap].
    exec_run; rewrite ?Hu, ?Hu' in *; zbool; try done; try congruence; try lia.
Qed.

(** X15.  A write of non-zero length on an uncommitted mblock that
    passes validation and the asserted page contract returns what the
    transfer returned.  The transfer is issued once, at the written
    length (as the callee's [u64]), under the write lock, with [REQ_FUA]
    exactly when the device has FUA.  The written length is advanced when the transfer returned
    0; when it failed, the records are what they were. *)
Theorem write_returns_the_transfer_result mp mbh iov iovcnt len (w : world D)
    l lay err d' :
  resolves w mbh l lay ->
  committed (to_u8 (eld_state lay)) = false ->
  mblock_optimal_iosz_get mp lay <> 0 ->
  to_u64 (eld_mblen lay) mod mblock_optimal_iosz_get mp lay = 0 ->
  to_u64 (len + eld_mblen lay) <= to_u32 (pmd_layout_cap_get mp lay) ->
  len <> 0 -> PAGE_ALIGNED len = true ->
  to_u64 iovcnt = Z.shiftr len PAGE_SHIFT ->
  PAGE_ALIGNED (eld_mblen lay) = true ->
  pmd_layout_rw mp lay iov iovcnt (to_u64 (eld_mblen lay))
    (if pdi_fua (pmd_layout_pd_get mp lay) then REQ_FUA else 0)
    MPOOL_OP_WRITE (w_pmd w) = (err, d') ->
  exists w',
    mblock_write mp mbh iov iovcnt len w = Ret err w' /\
    w_pmd w' = d' /\
    w_objs w' =
      (if err =? 0
       then <[l := set_eld_mblen (to_u32 (eld_mblen lay + len)) lay]> (w_objs w)
       else w_objs w) /\
    w_calls w' =
      w_calls w ++
      [Call_obj_wrlock l;
       Call_layout_rw l iovcnt (to_u64 (eld_mblen lay))
         (if pdi_fua (pmd_layout_pd_get mp lay) then REQ_FUA else 0)
         MPOOL_OP_WRITE;
       Call_obj_wrunlock l].
Proof.
  intros (-> & Hl & Hid)%resolves_inv Hnc Hopt Hmod Hcap Hlen Hal Hio Hab Hrw.
  destruct (err =? 0) eqn:Herr.
  all: exec_run; zbool; try congruence; try lia.
  all: repeat match goal with
         | H : ?t = (_, _), H' : ?t = (_, _) |- _ =>
             rewrite H in H'; simplify_eq
         end; try done.
  all: eexists; (split; [reflexivity|]); simpl; rewrite <- ?app_assoc; done.
Qed.

(** X16.  On a device that reports an optimal transfer size of 0, every
    write through a handle that resolves stops in the division of the
    alignment check, whatever its length: the offset check before it
    cannot fail, since [mblock_write] passes the written length
    itself.  No lock was taken and nothing was changed. *)
Theorem write_divides_by_the_optimal_size mp mbh iov iovcnt len (w : world D)
    l lay :
  resolves w mbh l lay ->
  mblock_optimal_iosz_get mp lay = 0 ->
  exists w', mblock_write mp mbh iov iovcnt len w = Trap Divide_error w' /\
             same_but_klog w w'.
Proof.
  intros (-> & Hl & Hid)%resolves_inv Hopt. unfold same_but_klog.
  exec_run; zbool; try congruence; try lia; eauto.
Qed.

(** X17.  Read validation has no lower bound on the offset.  A read at
    a negative page-aligned offset whose end [boff + len] lies within
    the written length passes the three checks (the capacity check
    compares signed values, the length check adds unsigned ones), and on
    a committed mblock the transfer is issued.  The callee takes the
    offset as a [u64]: what it receives is [2^64 + boff], an offset far
    beyond the capacity. *)
Theorem read_accepts_negative_offset mp mbh iov iovcnt boff len (w : world D)
    l lay :
  resolves w mbh l lay ->
  committed (to_u8 (eld_state lay)) = true ->
  is_s64 boff -> boff < 0 -> PAGE_ALIGNED boff = true ->
  0 <= boff + len <= eld_mblen lay -> is_u32 (eld_mblen lay) ->
  PAGE_ALIGNED len = true ->
  to_u64 iovcnt = Z.shiftr len PAGE_SHIFT ->
  exists w',
    mblock_read (Some mp) mbh iov iovcnt boff len w =
      Ret (pmd_layout_rw mp lay iov iovcnt (2 ^ 64 + boff) 0 MPOOL_OP_READ
             (w_pmd w)).1 w' /\
    w_calls w' =
      w_calls w ++ [Call_obj_rdlock l;
                    Call_layout_rw l iovcnt (2 ^ 64 + boff) 0 MPOOL_OP_READ;
                    Call_obj_rdunlock l] /\
    to_u32 (pmd_layout_cap_get mp lay) < 2 ^ 64 + boff.
Proof.
  intros (-> & Hl & Hid)%resolves_inv Hc Hs Hneg Hab Hsum Hm Hal Hio.
  pose proof (to_u32_range (pmd_layout_cap_get mp lay)) as Hr.
  assert (to_u64 boff = 2 ^ 64 + boff) as Hu.
  { unfold to_u64, is_s64 in *. symmetry.
    apply Z.mod_unique with (q := -1); lia. }
  destruct (read_on_committed mp l lay iov iovcnt boff len w)
    as (w' & Hrd & Hcalls & _); try done.
  - unfold is_u32 in Hr. lia.
  - rewrite to_u64_small; [lia|]. unfold is_u64, is_u32 in *. lia.
  - lia.
  - rewrite Hu in Hrd, Hcalls. exists w'.
    split; [done|]. split; [done|].
    unfold is_u32, is_s64 in *. lia.
Qed.

(** What a write that returned 0 has checked and asserted. *)
Lemma mblock_write_success_inv mp l lay iov iovcnt len (w w' : world D) :
  w_objs w !! l = Some lay -> mblock_objid (eld_objid lay) = true ->
  is_u32 (eld_mblen lay) -> is_u64 len -> is_int iovcnt -> 0 < len ->
  mblock_write mp (Some l) iov iovcnt len w = Ret 0 w' ->
  is_u32 (eld_mblen lay + len) /\
  eld_mblen lay + len <= to_u32 (pmd_layout_cap_get mp lay) /\
  PAGE_ALIGNED len = true /\ PAGE_ALIGNED (eld_mblen lay) = true /\
  to_u64 iovcnt = Z.shiftr len PAGE_SHIFT.
Proof.
  intros Hl Hid Hm Hlen Hi Hpos Hw.
  exec_run; try lia.
  all: try (match goal with H : merr EALREADY = 0 |- _ => discriminate H end).
  all: match goal with
       | H : (to_u64 ?i =? _) = true, H' : (to_u64 (_ + _) >? _) = false |- _ =>
           pose proof (write_no_wrap _ _ _ _ Hi Hlen Hm H H') as Hnw;
           pose proof H as Hio; apply Z.eqb_eq in Hio;
           pose proof (asserted_len_small _ _ Hi Hlen Hio) as Hsmall
       end.
  all: zbool.
  all: match goal with
       | H : to_u64 (?n + ?m) <= _ |- _ =>
           rewrite (to_u64_small (n + m)) in H
             by (unfold is_u64, is_u32 in *; lia)
       end.
  all: repeat split; try done; try lia.
  all: rewrite <- Hnw; apply to_u32_range.
Qed.

(** X18.  Two writes of non-zero length through the same handle that
    both return 0 are contiguous: the first transfer is issued at the
    written length found, the second at that length plus the length of
    the first, each under its own write lock, and the written length
    ends as the sum of the three. *)
Theorem appends_are_contiguous mp mbh iov1 iovcnt1 len1 iov2 iovcnt2 len2
    (w w1 w2 : world D) l lay :
  resolves w mbh l lay ->
  is_u32 (eld_mblen lay) ->
  is_u64 len1 -> is_int iovcnt1 -> 0 < len1 ->
  is_u64 len2 -> is_int iovcnt2 -> 0 < len2 ->
  mblock_write mp mbh iov1 iovcnt1 len1 w = Ret 0 w1 ->
  mblock_write mp mbh iov2 iovcnt2 len2 w1 = Ret 0 w2 ->
  exists lay2 flags1 flags2,
    w_objs w2 !! l = Some lay2 /\
    eld_mblen lay2 = eld_mblen lay + len1 + len2 /\
    w_calls w2 =
      w_calls w ++
      [Call_obj_wrlock l;
       Call_layout_rw l iovcnt1 (eld_mblen lay) flags1 MPOOL_OP_WRITE;
       Call_obj_wrunlock l;
       Call_obj_wrlock l;
       Call_layout_rw l iovcnt2 (eld_mblen lay + len1) flags2 MPOOL_OP_WRITE;
       Call_obj_wrunlock l].
Proof.
  intros Hres Hm Hl1 Hi1 Hp1 Hl2 Hi2 Hp2 Hw1 Hw2.
  pose proof Hres as (-> & Hl & Hid)%resolves_inv.
  destruct (mblock_write_appends _ _ _ _ _ _ _ _ _ Hres Hm Hl1 Hi1 Hp1 Hw1)
    as (_ & Hobjs1 & Hcalls1).
  destruct (mblock_write_success_inv _ _ _ _ _ _ _ _ Hl Hid Hm Hl1 Hi1 Hp1 Hw1)
    as (Hm1 & _).
  set (lay1 := set_eld_mblen (eld_mblen lay + len1) lay) in *.
  assert (w_objs w1 !! l = Some lay1) as Hl1'
    by (rewrite Hobjs1; apply lookup_insert_eq).
  assert (resolves w1 (Some l) l lay1) as Hres1
    by (apply resolves_intro; done).
  destruct (mblock_write_appends _ _ _ _ _ _ _ _ _ Hres1 Hm1 Hl2 Hi2 Hp2 Hw2)
    as (_ & Hobjs2 & Hcalls2).
  do 3 eexists.
  split; [rewrite Hobjs2; apply lookup_insert_eq|].
  split; [reflexivity|].
  rewrite Hcalls2, Hcalls1, <- app_assoc. reflexivity.
Qed.

(** X19.  No transfer is issued that was not validated.  If a call of
    [mblock_read], however it ends, has issued a transfer, then it is
    the one transfer asked for (at the offset converted to the callee's
    [u64]), the mblock is committed, the length is
    not 0, offset and length are page-aligned, the offset is below the
    capacity and the end of the request is within the written length.
    If a call of [mblock_write] has issued a transfer, then it is one at
    the written length, the mblock is not committed, the length is not
    0, offset and length are page-aligned, the offset is a multiple of
    the optimal transfer size and the end of the request, as the 64-bit
    sum, is within the capacity. *)
Theorem issued_transfers_are_validated mp mbh iov iovcnt boff len (w : world D)
    l lay l' n b f rw :
  resolves w mbh l lay ->
  (In (Call_layout_rw l' n b f rw)
      (drop (length (w_calls w))
         (w_calls (final (mblock_read (Some mp) mbh iov iovcnt boff len w)))) ->
   (l' = l /\ n = iovcnt /\ b = to_u64 boff /\ f = 0 /\
    rw = MPOOL_OP_READ) /\
   committed (to_u8 (eld_state lay)) = true /\
   len <> 0 /\ PAGE_ALIGNED boff = true /\ PAGE_ALIGNED len = true /\
   to_u64 iovcnt = Z.shiftr len PAGE_SHIFT /\
   boff < to_u32 (pmd_layout_cap_get mp lay) /\
   to_u64 (boff + len) <= eld_mblen lay) /\
  (In (Call_layout_rw l' n b f rw)
      (drop (length (w_calls w))
         (w_calls (final (mblock_write mp mbh iov iovcnt len w)))) ->
   (l' = l /\ n = iovcnt /\ b = to_u64 (eld_mblen lay) /\
    rw = MPOOL_OP_WRITE) /\
   committed (to_u8 (eld_state lay)) = false /\
   len <> 0 /\ PAGE_ALIGNED (eld_mblen lay) = true /\ PAGE_ALIGNED len = true /\
   to_u64 iovcnt = Z.shiftr len PAGE_SHIFT /\
   to_u64 (eld_mblen lay) mod mblock_optimal_iosz_get mp lay = 0 /\
   to_u64 (len + eld_mblen lay) <= to_u32 (pmd_layout_cap_get mp lay)).
Proof.
  intros (-> & Hl & Hid)%resolves_inv. split; intros Hin.
  - exec_run; new_calls Hin.
    all: zbool; repeat split; try done; lia.
  - exec_run; new_calls Hin.
    all: zbool; repeat split; try done; lia.
Qed.

End Transfers.

Section RoundTrip.
Context {D : Type} `{!Pmd D} `{!PmdLaws D}.

(** X20.  What was appended can be read back once the mblock is
    committed.  After a write of non-zero length that returned 0 and a
    commit that returned 0, the record holds the written length of
    before plus [len], and a read of the same [len] bytes at the offset
    of the append passes validation, takes the read lock, issues the
    transfer there and returns its result.  The capacity of the layout
    is taken not to depend on how much is written. *)
Theorem appended_data_is_readable_after_commit mp mbh iov iovcnt len iov'
    (w w1 w2 : world D) l lay :
  resolves w mbh l lay ->
  is_u32 (eld_mblen lay) -> is_u64 len -> is_int iovcnt -> 0 < len ->
  pmd_layout_cap_get mp (set_eld_mblen (eld_mblen lay + len) lay) =
    pmd_layout_cap_get mp lay ->
  mblock_write mp mbh iov iovcnt len w = Ret 0 w1 ->
  mblock_commit mp mbh w1 = Ret 0 w2 ->
  exists lay2 w3,
    w_objs w2 !! l = Some lay2 /\
    eld_mblen lay2 = eld_mblen lay + len /\
    mblock_read (Some mp) mbh iov' iovcnt (eld_mblen lay) len w2 =
      Ret (pmd_layout_rw mp lay2 iov' iovcnt (eld_mblen lay) 0 MPOOL_OP_READ
             (w_pmd w2)).1 w3 /\
    w_calls w3 =
      w_calls w2 ++ [Call_obj_rdlock l;
                     Call_layout_rw l iovcnt (eld_mblen lay) 0 MPOOL_OP_READ;
                     Call_obj_rdunlock l].
Proof.
  intros Hres Hm Hlen Hi Hpos Hcapeq Hw Hc.
  pose proof Hres as (-> & Hl & Hid)%resolves_inv.
  destruct (mblock_write_appends _ _ _ _ _ _ _ _ _ Hres Hm Hlen Hi Hpos Hw)
    as (_ & Hobjs1 & _).
  destruct (mblock_write_success_inv _ _ _ _ _ _ _ _ Hl Hid Hm Hlen Hi Hpos Hw)
    as (Hm1 & Hcap & Hal & Hab & Hio).
  set (lay1 := set_eld_mblen (eld_mblen lay + len) lay) in *.
  assert (w_objs w1 !! l = Some lay1) as Hl1
    by (rewrite Hobjs1; apply lookup_insert_eq).
  destruct (commit_success_inv mp l lay1 w1 w2 Hl1 Hid Hc)
    as (lay2 & Hl2 & (Hobj & Hmb & Hcapk & _) & Hcc).
  simpl in Hmb, Hobj.
  destruct (read_on_committed mp l lay2 iov' iovcnt (eld_mblen lay) len w2)
    as (w3 & Hrd & Hcalls & _); try done.
  - by rewrite Hobj.
  - rewrite Hcapk, Hcapeq. lia.
  - rewrite Hmb. rewrite to_u64_small; [lia|]. unfold is_u64, is_u32 in *. lia.
  - lia.
  - rewrite (to_u64_small (eld_mblen lay)) in Hrd, Hcalls
      by (unfold is_u64, is_u32 in *; lia).
    exists lay2, w3. done.
Qed.

End RoundTrip.

(** ** The reference collaborator obeys the laws *)

Lemma lor_committed st : Z.land (to_u8 (Z.lor st 1)) 1 <> 0.
Proof.
  intros E. apply (f_equal (fun z => Z.testbit z 0)) in E.
  rewrite Z.land_spec, Z.bits_0 in E. unfold to_u8 in E.
  rewrite Z.mod_pow2_bits_low, Z.lor_spec in E by lia.
  simpl in E. by rewrite orb_true_r in E.
Qed.

Lemma ref_set_committed_kept a :
  layout_kept a (set_eld_state (Z.lor (eld_state a) LYT_COMMITTED) a).
Proof.
  unfold layout_kept; simpl. repeat split; try done.
  intros _. unfold committed. simpl.
  apply negb_true_iff, Z.eqb_neq, lor_committed.
Qed.

Lemma ref_add_ref_kept n a : layout_kept a (add_eld_ref n a).
Proof. unfold layout_kept. simpl. auto. Qed.

(** The three ways the reference directory changes the store: a new
    record at a fresh address, one record replaced by a kept one, one
    record removed. *)

Lemma objs_kept_insert_fresh (objs : gmap positive pmd_layout) lay :
  objs_kept objs (<[fresh (dom objs) := lay]> objs).
Proof.
  intros l a b Ha Hb.
  destruct (decide (fresh (dom objs) = l)) as [<-|Hne].
  - exfalso. apply (is_fresh (dom objs)), elem_of_dom. eauto.
  - rewrite lookup_insert_ne in Hb by done. simplify_eq.
    apply layout_kept_refl.
Qed.

Lemma objs_kept_alter (f : pmd_layout -> pmd_layout) l
    (objs : gmap positive pmd_layout) :
  (forall a, layout_kept a (f a)) -> objs_kept objs (alter f l objs).
Proof.
  intros Hf l' a b Ha Hb. rewrite lookup_alter in Hb. case_decide; subst.
  - rewrite Ha in Hb. simplify_eq/=. apply Hf.
  - simplify_eq. apply layout_kept_refl.
Qed.

Lemma objs_kept_insert_kept l a' (objs : gmap positive pmd_layout) a :
  objs !! l = Some a -> layout_kept a a' -> objs_kept objs (<[l := a']> objs).
Proof.
  intros Hl Hk l' b c Hb Hc.
  destruct (decide (l = l')) as [->|Hne].
  - rewrite lookup_insert_eq in Hc. by simplify_eq.
  - rewrite lookup_insert_ne in Hc by done. simplify_eq.
    apply layout_kept_refl.
Qed.

Lemma objs_kept_delete l (objs : gmap positive pmd_layout) :
  objs_kept objs (delete l objs).
Proof.
  intros l' a b Ha Hb.
  destruct (decide (l = l')) as [->|Hne].
  - by rewrite lookup_delete_eq in Hb.
  - rewrite lookup_delete_ne in Hb by done. simplify_eq.
    apply layout_kept_refl.
Qed.

Create HintDb ref_kept.

#[local] Hint Resolve objs_kept_refl objs_kept_insert_fresh objs_kept_delete
  ref_add_ref_kept ref_set_committed_kept : ref_kept.

Lemma ref_laws : PmdLaws ref_state.
Proof.
  constructor; simpl;
    unfold ref_obj_alloc, ref_obj_realloc, ref_obj_find_get, ref_obj_put,
      ref_obj_commit, ref_obj_abort, ref_obj_delete;
    intros; repeat case_match; simplify_eq;
    eauto using objs_kept_alter, objs_kept_insert_kept with ref_kept.
  (* a commit that succeeded *)
  match goal with H : is_Some _ |- _ => destruct H as [a Ha] end.
  simplify_eq. eexists. rewrite lookup_insert_eq. split; [done|].
  unfold committed. simpl. apply negb_true_iff, Z.eqb_neq, lor_committed.
Qed.

(** ** Runs on concrete inputs

    Each theorem above that has hypotheses is applied here to the
    reference collaborator and a concrete mblock; the statements that
    the code does not satisfy as the specification words them are
    refuted on such inputs. *)

(** C1 on a fresh mblock: one page is appended at offset 0. *)
Lemma write_advances_written_len_witness :
  exists w' lay',
    mblock_write mp0 (Some 1%positive) one_page 1 4096
                 (world_of (lay_at 0 0) dev_ok) = Ret 0 w' /\
    w_objs w' !! 1%positive = Some lay' /\
    eld_mblen lay' = 0 + 4096 /\
    w_calls w' = [Call_obj_wrlock 1; Call_layout_rw 1 1 0 0 MPOOL_OP_WRITE;
                  Call_obj_wrunlock 1].
Proof.
  set (w := world_of (lay_at 0 0) dev_ok).
  set (w' := final (mblock_write mp0 (Some 1%positive) one_page 1 4096 w)).
  assert (mblock_write mp0 (Some 1%positive) one_page 1 4096 w = Ret 0 w')
    as Hrun by (vm_compute; reflexivity).
  destruct (proj1 (@write_advances_written_len_and_nothing_else_does
                     ref_state ref_pmd ref_laws)
              mp0 (Some 1%positive) one_page 1 4096 w w' 1%positive (lay_at 0 0))
    as (lay' & Hl & Hm & Hc).
  - apply resolves_intro; reflexivity.
  - reflexivity.
  - unfold is_u32; simpl; lia.
  - unfold is_u64; lia.
  - unfold is_int; lia.
  - lia.
  - exact Hrun.
  - exists w', lay'. repeat split; assumption.
Defined.

(** C2 on a committed mblock holding one page: a valid write of one more
    page is refused with EALREADY, and after it the properties are the
    same. *)
Lemma commit_freezes_witness :
  exists w' q q' w1 w1',
    mblock_write mp0 (Some 1%positive) one_page 1 4096
                 (world_of (lay_at 1 4096) dev_ok) = Ret (merr EALREADY) w' /\
    mblock_get_props mp0 (Some 1%positive) (Some no_props)
                     (world_of (lay_at 1 4096) dev_ok) = Ret (0, Some q) w1 /\
    mblock_get_props mp0 (Some 1%positive) (Some no_props) w' =
      Ret (0, Some q') w1' /\
    mpr_write_len q' = mpr_write_len q /\
    mpr_alloc_cap q' = mpr_alloc_cap q.
Proof.
  set (w := world_of (lay_at 1 4096) dev_ok).
  destruct (@commit_freezes_written_len ref_state ref_pmd ref_laws
              mp0 (Some 1%positive) 1%positive (lay_at 1 4096) w)
    as [Hw Hq]; [apply resolves_intro; reflexivity | reflexivity |].
  destruct (Hw one_page 1 4096) as (_ & _ & H).
  destruct H as (w' & Hrun);
    [vm_compute; reflexivity | lia | reflexivity ..|].
  assert (still_held 1%positive w w') as Hheld.
  { apply (held_step _ w w (Op_write mp0 (Some 1%positive) one_page 1 4096)
             (merr EALREADY) w'); [apply held_refl | exact Hrun |].
    assert (w' = final (mblock_write mp0 (Some 1%positive) one_page 1 4096 w))
      as -> by (rewrite Hrun; reflexivity).
    vm_compute. eauto. }
  destruct (Hq w' Hheld mp0 no_props no_props)
    as (q & q' & w1 & w1' & H1 & H2 & H3 & H4).
  exists w', q, q', w1, w1'. repeat split; assumption.
Defined.

(** C2 as worded fails: on a committed and full mblock a write of one
    page returns EINVAL (validation comes first), and a write of length 0
    returns 0. *)
Lemma write_after_commit_is_not_always_EALREADY :
  committed (to_u8 (eld_state (lay_at 1 8192))) = true /\
  resolves (world_of (lay_at 1 8192) dev_ok) (Some 1%positive) 1%positive
           (lay_at 1 8192) /\
  (exists w', mblock_write mp0 (Some 1%positive) one_page 1 4096
                (world_of (lay_at 1 8192) dev_ok) = Ret (merr EINVAL) w') /\
  (exists w', mblock_write mp0 (Some 1%positive) [] 0 0
                (world_of (lay_at 1 8192) dev_ok) = Ret 0 w') /\
  merr EINVAL <> merr EALREADY /\ 0 <> merr EALREADY.
Proof.
  split; [reflexivity|].
  split; [apply resolves_intro; reflexivity|].
  split; [eexists; vm_compute; reflexivity|].
  split; [eexists; vm_compute; reflexivity|].
  split; discriminate.
Qed.

(** C3 on an uncommitted mblock holding one page: reading it returns
    EAGAIN; after a commit the same read issues the transfer. *)
Lemma read_gate_witness :
  (exists w', mblock_read (Some mp0) (Some 1%positive) one_page 1 0 4096
                (world_of (lay_at 0 4096) dev_ok) = Ret (merr EAGAIN) w') /\
  (exists wc r w',
     mblock_commit mp0 (Some 1%positive) (world_of (lay_at 0 4096) dev_ok) =
       Ret 0 wc /\
     mblock_read (Some mp0) (Some 1%positive) one_page 1 0 4096 wc = Ret r w' /\
     w_calls w' =
       w_calls wc ++ [Call_obj_rdlock 1;
                      Call_layout_rw 1 1 0 0 MPOOL_OP_READ;
                      Call_obj_rdunlock 1]).
Proof.
  set (w := world_of (lay_at 0 4096) dev_ok).
  destruct (@read_is_gated_by_commit ref_state ref_pmd ref_laws
              mp0 (Some 1%positive) one_page 1 0 4096 w 1%positive
              (lay_at 0 4096))
    as (_ & _ & H).
  - apply resolves_intro; reflexivity.
  - reflexivity.
  - destruct H as [H1 H2];
      [vm_compute; reflexivity | lia | reflexivity | reflexivity |].
    split; [exact H1|].
    set (wc := final (mblock_commit mp0 (Some 1%positive) w)).
    assert (mblock_commit mp0 (Some 1%positive) w = Ret 0 wc) as Hc
      by (vm_compute; reflexivity).
    destruct (H2 wc Hc) as (layc & w' & _ & Hrd & Hcalls).
    exists wc. eexists. exists w'. repeat split; eassumption.
Defined.

(** C3 as worded fails: on an uncommitted mblock a read of length 0
    returns 0, and a read beyond the written length returns EINVAL. *)
Lemma read_before_commit_is_not_always_EAGAIN :
  committed (to_u8 (eld_state (lay_at 0 4096))) = false /\
  resolves (world_of (lay_at 0 4096) dev_ok) (Some 1%positive) 1%positive
           (lay_at 0 4096) /\
  (exists w', mblock_read (Some mp0) (Some 1%positive) [] 0 0 0
                (world_of (lay_at 0 4096) dev_ok) = Ret 0 w') /\
  (exists w', mblock_read (Some mp0) (Some 1%positive) one_page 1 4096 4096
                (world_of (lay_at 0 4096) dev_ok) = Ret (merr EINVAL) w') /\
  0 <> merr EAGAIN /\ merr EINVAL <> merr EAGAIN.
Proof.
  split; [reflexivity|].
  split; [apply resolves_intro; reflexivity|].
  split; [eexists; vm_compute; reflexivity|].
  split; [eexists; vm_compute; reflexivity|].
  split; discriminate.
Qed.

(** C4: zero-length write on a committed mblock, zero-length read on an
    uncommitted one. *)
Lemma zero_length_witness :
  (exists w', mblock_write mp0 (Some 1%positive) [] 0 0
                (world_of (lay_at 1 4096) dev_ok) = Ret 0 w' /\
              same_but_klog (world_of (lay_at 1 4096) dev_ok) w') /\
  (exists w', mblock_read (Some mp0) (Some 1%positive) [] 0 4096 0
                (world_of (lay_at 0 4096) dev_ok) = Ret 0 w' /\
              same_but_klog (world_of (lay_at 0 4096) dev_ok) w').
Proof.
  split.
  - destruct (@zero_length_transfer_is_no_op_once_validated ref_state ref_pmd
                mp0 (Some 1%positive) [] 0 0 (world_of (lay_at 1 4096) dev_ok)
                1%positive (lay_at 1 4096)) as (H & _).
    + apply resolves_intro; reflexivity.
    + apply H. vm_compute; reflexivity.
  - destruct (@zero_length_transfer_is_no_op_once_validated ref_state ref_pmd
                mp0 (Some 1%positive) [] 0 4096 (world_of (lay_at 0 4096) dev_ok)
                1%positive (lay_at 0 4096)) as (_ & H & _).
    + apply resolves_intro; reflexivity.
    + apply H. vm_compute; reflexivity.
Defined.

(** C4 as worded fails: a zero-length read at offset 1, or at the
    capacity, returns EINVAL. *)
Lemma zero_length_read_can_fail :
  resolves (world_of (lay_at 1 4096) dev_ok) (Some 1%positive) 1%positive
           (lay_at 1 4096) /\
  (exists w', mblock_read (Some mp0) (Some 1%positive) [] 0 1 0
                (world_of (lay_at 1 4096) dev_ok) = Ret (merr EINVAL) w') /\
  (exists w', mblock_read (Some mp0) (Some 1%positive) [] 0 8192 0
                (world_of (lay_at 1 4096) dev_ok) = Ret (merr EINVAL) w') /\
  merr EINVAL <> 0.
Proof.
  split; [apply resolves_intro; reflexivity|].
  split; [eexists; vm_compute; reflexivity|].
  split; [eexists; vm_compute; reflexivity|].
  discriminate.
Qed.

(** C5: one page written, a read of the second page. *)
Lemma read_past_written_len_witness :
  (exists w', mblock_read (Some mp0) (Some 1%positive) one_page 1 4096 4096
                (world_of (lay_at 1 4096) dev_ok) = Ret (merr EINVAL) w' /\
              same_but_klog (world_of (lay_at 1 4096) dev_ok) w') /\
  mblock_rw_argcheck mp0 1%positive 4096 MPOOL_OP_READ 4096
      (world_of (lay_at 1 4096) dev_ok) =
    Ret (merr EINVAL) (world_of (lay_at 1 4096) dev_ok).
Proof.
  destruct (@read_past_written_len_is_rejected_whatever_the_length
              ref_state ref_pmd mp0 (Some 1%positive) one_page 1 4096 4096
              (world_of (lay_at 1 4096) dev_ok) 1%positive (lay_at 1 4096))
    as (H1 & H2).
  - apply resolves_intro; reflexivity.
  - lia.
  - simpl. lia.
  - split; [exact H1|]. apply H2; [reflexivity | vm_compute; reflexivity].
Defined.

(** C5 as worded fails: there is no length for which a read running past
    the written length gets through.  On a committed mblock with nothing
    written, a read of any non-zero length at offset 0, and a read of
    length 0 at offset 4096, are rejected with EINVAL. *)
Lemma no_read_ahead_sentinel :
  ~ exists sentinel,
      is_u64 sentinel /\
      forall boff, 0 <= boff -> is_s64 boff ->
        boff + sentinel > eld_mblen (lay_at 1 0) ->
        forall r w',
          mblock_read (Some mp0) (Some 1%positive) [] 0 boff sentinel
                      (world_of (lay_at 1 0) dev_ok) = Ret r w' ->
          r <> merr EINVAL.
Proof.
  intros (s & Hs & H). unfold is_u64 in Hs.
  assert (resolves (world_of (lay_at 1 0) dev_ok) (Some 1%positive) 1%positive
                   (lay_at 1 0)) as Hres
    by (apply resolves_intro; reflexivity).
  destruct (decide (s = 0)) as [->|Hne].
  - destruct (mblock_read_past_written mp0 (Some 1%positive) [] 0 4096 0
                _ _ _ Hres) as (w' & Hr & _); simpl; try lia.
    apply (H 4096 ltac:(lia) ltac:(unfold is_s64; lia) ltac:(simpl; lia)
             _ _ Hr). reflexivity.
  - destruct (mblock_read_past_written mp0 (Some 1%positive) [] 0 0 s
                _ _ _ Hres) as (w' & Hr & _); simpl; try lia.
    apply (H 0 ltac:(lia) ltac:(unfold is_s64; lia) ltac:(simpl; lia)
             _ _ Hr). reflexivity.
Qed.

(** C7 with a device whose flush fails with 5 (EIO). *)
Lemma commit_flush_failure_witness :
  exists w',
    mblock_commit mp0 (Some 1%positive) (world_of (lay_at 0 4096) dev_flush_fails)
      = Ret 5 w' /\
    w_calls w' = [Call_dev_flush (ref_pd_get mp0 (lay_at 0 4096))] /\
    w_objs w' = w_objs (world_of (lay_at 0 4096) dev_flush_fails).
Proof.
  destruct (@commit_flushes_first ref_state ref_pmd mp0 (Some 1%positive)
              (world_of (lay_at 0 4096) dev_flush_fails) 1%positive
              (lay_at 0 4096)) as (H & _).
  - apply resolves_intro; reflexivity.
  - reflexivity.
  - destruct H as (w' & Hc & Hcalls & Hobjs & _); [simpl; lia|].
    exists w'. repeat split; assumption.
Defined.

(** C8 with the identifier of an mlog. *)
Lemma non_mblock_id_witness :
  mblock_objid mlog_id = false /\
  mblock_realloc (Some mp0) mlog_id 0 false None None
                 (world_of (lay_mlog) dev_ok) =
    Ret (merr EINVAL, None, None) (world_of (lay_mlog) dev_ok) /\
  mblock_find_get mp0 mlog_id 0 None (Some 1%positive)
                  (world_of (lay_mlog) dev_ok) =
    Ret (merr EINVAL, None, None) (world_of (lay_mlog) dev_ok).
Proof.
  destruct (@non_mblock_id_is_rejected ref_state ref_pmd) as (_ & H1 & H2).
  split; [reflexivity|]. split.
  - apply H1. reflexivity.
  - apply H2. reflexivity.
Defined.

(** C9: a write past the capacity, a read at an offset that is not
    page-aligned. *)
Lemma validation_failure_witness :
  (exists w', mblock_write mp0 (Some 1%positive) one_page 1 8192
                (world_of (lay_at 0 4096) dev_ok) = Ret (merr EINVAL) w' /\
              same_but_klog (world_of (lay_at 0 4096) dev_ok) w') /\
  (exists w', mblock_read (Some mp0) (Some 1%positive) one_page 1 1 4096
                (world_of (lay_at 1 4096) dev_ok) = Ret (merr EINVAL) w' /\
              same_but_klog (world_of (lay_at 1 4096) dev_ok) w').
Proof.
  split.
  - destruct (@validation_failure_has_no_side_effect ref_state ref_pmd
                mp0 (Some 1%positive) one_page 1 0 8192
                (world_of (lay_at 0 4096) dev_ok) 1%positive (lay_at 0 4096))
      as (H & _).
    + apply resolves_intro; reflexivity.
    + eapply (H (merr EINVAL)); [vm_compute; reflexivity | discriminate].
  - destruct (@validation_failure_has_no_side_effect ref_state ref_pmd
                mp0 (Some 1%positive) one_page 1 1 4096
                (world_of (lay_at 1 4096) dev_ok) 1%positive (lay_at 1 4096))
      as (_ & H).
    + apply resolves_intro; reflexivity.
    + eapply (H (merr EINVAL)); [vm_compute; reflexivity | discriminate].
Defined.

(** C10: release of NULL and of a handle to an mlog record. *)
Lemma mblock_put_witness :
  mblock_put mp0 None (world_of lay_mlog dev_ok) =
    Ret tt (world_of lay_mlog dev_ok) /\
  exists w', mblock_put mp0 (Some 1%positive) (world_of lay_mlog dev_ok) =
               Ret tt w' /\
             same_but_klog (world_of lay_mlog dev_ok) w'.
Proof.
  destruct (@mblock_put_of_bad_handle_is_no_op ref_state ref_pmd mp0
              (world_of lay_mlog dev_ok)) as (H0 & H).
  split; [exact H0|].
  destruct (H 1%positive lay_mlog) as (w' & Hp & Hs & _);
    [reflexivity | reflexivity |].
  exists w'. split; assumption.
Defined.

(** X1: a write of two pages where one page is left. *)
Lemma mblock_write_rejects_witness :
  exists w', mblock_write mp0 (Some 1%positive) one_page 2 8192
               (world_of (lay_at 0 4096) dev_ok) = Ret (merr EINVAL) w' /\
             same_but_klog (world_of (lay_at 0 4096) dev_ok) w'.
Proof.
  apply (@mblock_write_rejects ref_state ref_pmd mp0 (Some 1%positive)
           one_page 2 8192 (world_of (lay_at 0 4096) dev_ok) 1%positive
           (lay_at 0 4096)).
  - apply resolves_intro; reflexivity.
  - unfold is_u32; simpl; lia.
  - lia.
  - simpl; lia.
  - discriminate.
  - right. vm_compute. reflexivity.
Defined.

(** X2: a write offset of 0 when one page is written. *)
Lemma mblock_rw_argcheck_write_offset_witness :
  exists w', mblock_rw_argcheck mp0 1%positive 0 MPOOL_OP_WRITE 4096
               (world_of (lay_at 0 4096) dev_ok) = Ret (merr EINVAL) w' /\
             same_but_klog (world_of (lay_at 0 4096) dev_ok) w'.
Proof.
  destruct (@mblock_rw_argcheck_write_offset ref_state ref_pmd mp0 1%positive
              (lay_at 0 4096) 0 4096 (world_of (lay_at 0 4096) dev_ok))
    as (H & _); [reflexivity|].
  destruct H as (w' & Hr & Hs & _); [discriminate|].
  exists w'. split; assumption.
Defined.

(** X3: a commit through a handle to an mlog record. *)
Lemma unresolved_handle_witness :
  exists w', mblock_commit mp0 (Some 1%positive) (world_of lay_mlog dev_ok) =
               Ret (merr EINVAL) w' /\
             same_but_klog (world_of lay_mlog dev_ok) w'.
Proof.
  destruct (@unresolved_handle_is_rejected ref_state ref_pmd mp0
              (Some 1%positive) [] 0 0 0 None
              {| mbx_props := no_props; mbx_zonecnt := 0 |}
              (world_of lay_mlog dev_ok)) as (_ & _ & H & _).
  - right. exists 1%positive, lay_mlog. repeat split; reflexivity.
  - exact H.
Defined.

(** X4: the second page of an mblock of two pages. *)
Lemma mblock_write_keeps_bounds_witness :
  exists w' lay',
    mblock_write mp0 (Some 1%positive) one_page 1 4096
                 (world_of (lay_at 0 4096) dev_ok) = Ret 0 w' /\
    w_objs w' !! 1%positive = Some lay' /\
    4096 <= eld_mblen lay' <= 8192.
Proof.
  set (w := world_of (lay_at 0 4096) dev_ok).
  set (w' := final (mblock_write mp0 (Some 1%positive) one_page 1 4096 w)).
  assert (mblock_write mp0 (Some 1%positive) one_page 1 4096 w = Ret 0 w')
    as Hrun by (vm_compute; reflexivity).
  assert (w_objs w' !! 1%positive = Some (lay_at 0 8192)) as Hl'
    by (vm_compute; reflexivity).
  destruct (@mblock_write_keeps_bounds ref_state ref_pmd mp0 (Some 1%positive)
              one_page 1 4096 w 1%positive (lay_at 0 4096) 0 w'
              (lay_at 0 8192)) as (Hb & _).
  - apply resolves_intro; reflexivity.
  - unfold is_u32; simpl; lia.
  - unfold is_u64; lia.
  - unfold is_int; lia.
  - vm_compute. discriminate.
  - exact Hrun.
  - exact Hl'.
  - exists w', (lay_at 0 8192). repeat split; try assumption; apply Hb.
Defined.

(** ** Runs of the further properties *)

(** X5: a write of one page to a fresh mblock. *)
Lemma locks_witness :
  exists cs,
    w_calls (final (mblock_write mp0 (Some 1%positive) one_page 1 4096
                      (world_of (lay_at 0 0) dev_ok))) =
      w_calls (world_of (lay_at 0 0) dev_ok) ++ cs /\
    lock_walk [] cs = Some [].
Proof.
  apply (@locks_are_released_and_transfers_locked ref_state ref_pmd
           (Op_write mp0 (Some 1%positive) one_page 1 4096)
           (world_of (lay_at 0 0) dev_ok) 0).
  vm_compute. reflexivity.
Defined.

(** X7: abort, delete and release of an uncommitted mblock. *)
Lemma abort_delete_put_witness :
  (exists w', mblock_abort mp0 (Some 1%positive)
                (world_of (lay_at 0 4096) dev_ok) = Ret 0 w' /\
              w_calls w' = [Call_obj_abort 1]) /\
  (exists w', mblock_delete mp0 (Some 1%positive)
                (world_of (lay_at 0 4096) dev_ok) = Ret 0 w' /\
              w_calls w' = [Call_obj_delete 1]) /\
  (exists w', mblock_put mp0 (Some 1%positive)
                (world_of (lay_at 0 4096) dev_ok) = Ret tt w' /\
              w_calls w' = [Call_obj_put 1]).
Proof.
  destruct (@abort_delete_put_are_delegated ref_state ref_pmd mp0
              (Some 1%positive) (world_of (lay_at 0 4096) dev_ok) 1%positive
              (lay_at 0 4096)) as (Ha & Hd & Hp).
  - apply resolves_intro; reflexivity.
  - split; [|split].
    + destruct (Ha 0 ∅ dev_ok) as (w' & H1 & _ & _ & H2);
        [vm_compute; reflexivity|]. eauto.
    + destruct (Hd 0 ∅ dev_ok) as (w' & H1 & _ & _ & H2);
        [vm_compute; reflexivity|]. eauto.
    + destruct (Hp {[ 1%positive := add_eld_ref (-1) (lay_at 0 4096) ]} dev_ok)
        as (w' & H1 & _ & _ & H2); [vm_compute; reflexivity|]. eauto.
Defined.

(** X8: commit on a device with durable writes. *)
Lemma commit_on_durable_device_witness :
  exists w',
    @mblock_commit ref_state (alt_pmd pd_fua 0) mp0 (Some 1%positive)
      (world_of (lay_at 0 4096) dev_ok) = Ret 0 w' /\
    w_calls w' = [Call_obj_commit 1].
Proof.
  destruct (@commit_on_durable_device_does_not_flush ref_state
              (alt_pmd pd_fua 0) mp0 (Some 1%positive)
              (world_of (lay_at 0 4096) dev_ok) 1%positive (lay_at 0 4096)
              0 {[ 1%positive := lay_at 1 4096 ]} dev_ok)
    as (w' & H1 & _ & _ & H2).
  - apply (@resolves_intro ref_state (alt_pmd pd_fua 0)); reflexivity.
  - reflexivity.
  - vm_compute. reflexivity.
  - eauto.
Defined.

(** X9: an allocation that the directory refuses with 28 (ENOSPC), and
    one that it grants. *)
Lemma mblock_alloc_outcome_witness :
  (exists w',
     @mblock_alloc ref_state (alt_pmd pd_fua 28) (Some mp0) 0 false
       (Some 1%positive) (Some no_props) (world_of (lay_at 0 0) dev_ok) =
       Ret (28, Some no_props, None) w') /\
  (exists q w',
     mblock_alloc (Some mp0) 0 false None (Some no_props)
       (world_of (lay_at 0 0) dev_ok) = Ret (0, q, Some 2%positive) w' /\
     w_calls w' =
       [Call_obj_alloc 1 {| moc_captgt := 0; moc_spare := false |} 0;
        Call_obj_rdlock 2; Call_obj_rdunlock 2]).
Proof.
  split.
  - eexists.
    apply (@mblock_alloc_outcome ref_state (alt_pmd pd_fua 28) mp0 0 false
             (Some 1%positive) (Some no_props) (world_of (lay_at 0 0) dev_ok)
             28 None {[ 1%positive := lay_at 0 0 ]} dev_ok);
      [reflexivity | left; discriminate].
  - set (w := world_of (lay_at 0 0) dev_ok).
    destruct (@mblock_alloc_outcome ref_state ref_pmd mp0 0 false None
                (Some no_props) w 0 (Some 2%positive)
                (ref_obj_alloc mp0 1 {| moc_captgt := 0; moc_spare := false |}
                   0 (w_objs w) (w_pmd w)).1.2
                (ref_obj_alloc mp0 1 {| moc_captgt := 0; moc_spare := false |}
                   0 (w_objs w) (w_pmd w)).2)
      as (_ & _ & H); [vm_compute; reflexivity|].
    destruct (H 2%positive) as (q & w' & H1 & _ & _ & _ & _ & H2);
      [reflexivity | reflexivity | vm_compute; eauto |].
    exists q, w'. split; assumption.
Defined.

(** X10: a reallocation that the directory refuses with ENOENT, which is
    not logged, and one that it grants. *)
Lemma mblock_realloc_outcome_witness :
  (exists w',
     @mblock_realloc ref_state (alt_pmd pd_fua ENOENT) (Some mp0) mblock_id 0
       false None None (world_of lay_mlog dev_ok) =
       Ret (ENOENT, None, None) w' /\
     w_klog w' = []) /\
  (exists q w',
     mblock_realloc (Some mp0) mblock_id 0 false None None
       (world_of lay_mlog dev_ok) = Ret (0, q, Some 2%positive) w' /\
     w_calls w' =
       [Call_obj_realloc mblock_id {| moc_captgt := 0; moc_spare := false |} 0]).
Proof.
  split.
  - eexists. split.
    + apply (@mblock_realloc_outcome ref_state (alt_pmd pd_fua ENOENT) mp0
               mblock_id 0 false None None (world_of lay_mlog dev_ok)
               ENOENT None {[ 1%positive := lay_mlog ]} dev_ok);
        [reflexivity | reflexivity | left; discriminate].
    + reflexivity.
  - set (w := world_of lay_mlog dev_ok).
    destruct (@mblock_realloc_outcome ref_state ref_pmd mp0 mblock_id 0 false
                None None w 0 (Some 2%positive)
                (ref_obj_realloc mp0 mblock_id
                   {| moc_captgt := 0; moc_spare := false |}
                   0 (w_objs w) (w_pmd w)).1.2
                (ref_obj_realloc mp0 mblock_id
                   {| moc_captgt := 0; moc_spare := false |}
                   0 (w_objs w) (w_pmd w)).2)
      as (_ & _ & H); [reflexivity | vm_compute; reflexivity|].
    destruct (H 2%positive) as (q & w' & H1 & _ & _ & _ & _ & H2);
      [reflexivity | reflexivity | vm_compute; eauto |].
    exists q, w'. split; assumption.
Defined.

(** X11: a lookup of the mblock at address 1, and a lookup in a pool
    that holds an mlog only. *)
Lemma mblock_find_get_outcome_witness :
  (exists w',
     mblock_find_get mp0 mblock_id 0 (Some no_props) (Some 1%positive)
       (world_of lay_mlog dev_ok) = Ret (merr ENOENT, Some no_props, None) w') /\
  (exists q w',
     mblock_find_get mp0 mblock_id 0 (Some no_props) None
       (world_of (lay_at 0 4096) dev_ok) = Ret (0, q, Some 1%positive) w' /\
     w_calls w' =
       [Call_obj_find_get mblock_id 0; Call_obj_rdlock 1; Call_obj_rdunlock 1]).
Proof.
  split.
  - eexists.
    apply (@mblock_find_get_outcome ref_state ref_pmd mp0 mblock_id 0
             (Some no_props) (Some 1%positive) (world_of lay_mlog dev_ok)
             None {[ 1%positive := lay_mlog ]} dev_ok);
      [reflexivity | vm_compute; reflexivity | reflexivity].
  - set (w := world_of (lay_at 0 4096) dev_ok).
    destruct (@mblock_find_get_outcome ref_state ref_pmd mp0 mblock_id 0
                (Some no_props) None w (Some 1%positive)
                {[ 1%positive := add_eld_ref 1 (lay_at 0 4096) ]} dev_ok)
      as (_ & H); [reflexivity | vm_compute; reflexivity|].
    destruct (H 1%positive) as (q & w' & H1 & _ & _ & _ & _ & H2);
      [reflexivity | vm_compute; eauto |].
    exists q, w'. split; assumption.
Defined.

(** X12: the properties filled in by a lookup. *)
Lemma props_of_a_new_handle_witness :
  exists q w' w'',
    mblock_find_get mp0 mblock_id 0 (Some no_props) None
      (world_of (lay_at 0 4096) dev_ok) = Ret (0, q, Some 1%positive) w' /\
    mblock_get_props mp0 (Some 1%positive) (Some no_props) w' = Ret (0, q) w''.
Proof.
  set (w := world_of (lay_at 0 4096) dev_ok).
  set (o := mblock_find_get mp0 mblock_id 0 (Some no_props) None w).
  set (q := match o with Ret r _ => r.1.2 | Trap _ _ => None end).
  assert (o = Ret (0, q, Some 1%positive) (final o)) as Hrun
    by (vm_compute; reflexivity).
  destruct (@props_of_a_new_handle_are_its_props ref_state ref_pmd mp0
              no_props no_props q 1%positive (add_eld_ref 1 (lay_at 0 4096))
              w (final o)) as (_ & _ & H);
    [vm_compute; reflexivity | reflexivity |].
  destruct (H mblock_id 0 None Hrun) as (w'' & Hq).
  exists q, (final o), w''. split; assumption.
Defined.

(** X13: the properties of an mblock holding one page. *)
Lemma mblock_get_props_ex_witness :
  exists q w',
    mblock_get_props mp0 (Some 1%positive) (Some no_props)
      (world_of (lay_at 0 4096) dev_ok) = Ret (0, Some q) w' /\
    mblock_get_props_ex mp0 (Some 1%positive)
      {| mbx_props := no_props; mbx_zonecnt := 0 |}
      (world_of (lay_at 0 4096) dev_ok) =
      Ret (0, {| mbx_props := q; mbx_zonecnt := 2 |}) w'.
Proof.
  destruct (@mblock_get_props_ex_agrees ref_state ref_pmd mp0 (Some 1%positive)
              no_props {| mbx_props := no_props; mbx_zonecnt := 0 |}
              (world_of (lay_at 0 4096) dev_ok) 1%positive (lay_at 0 4096))
    as (q & w' & H1 & H2 & _).
  - apply resolves_intro; reflexivity.
  - exists q, w'. split; assumption.
Defined.

(** X14: one page fits after the first, two do not. *)
Lemma props_predict_write_validation_witness :
  mblock_rw_argcheck mp0 1%positive 4096 MPOOL_OP_WRITE 4096
    (world_of (lay_at 0 4096) dev_ok) = Ret 0 (world_of (lay_at 0 4096) dev_ok) /\
  mblock_rw_argcheck mp0 1%positive 4096 MPOOL_OP_WRITE 8192
    (world_of (lay_at 0 4096) dev_ok) <> Ret 0 (world_of (lay_at 0 4096) dev_ok).
Proof.
  set (w := world_of (lay_at 0 4096) dev_ok).
  set (o := mblock_get_props mp0 (Some 1%positive) (Some no_props) w).
  set (q := match o with
            | Ret (_, Some q) _ => q
            | _ => no_props
            end).
  assert (o = Ret (0, Some q) (final o)) as Hq by (vm_compute; reflexivity).
  assert (resolves w (Some 1%positive) 1%positive (lay_at 0 4096)) as Hres
    by (apply resolves_intro; reflexivity).
  split.
  - apply (@props_predict_write_validation ref_state ref_pmd mp0
             (Some 1%positive) no_props 4096 w 1%positive (lay_at 0 4096)
             q (final o) Hres Hq).
    + unfold is_u32; simpl; lia.
    + lia.
    + simpl; lia.
    + vm_compute. discriminate.
    + vm_compute. split; [reflexivity | discriminate].
  - intros Ha.
    apply (@props_predict_write_validation ref_state ref_pmd mp0
             (Some 1%positive) no_props 8192 w 1%positive (lay_at 0 4096)
             q (final o) Hres Hq) in Ha as [_ Hcap].
    + vm_compute in Hcap. apply Hcap. reflexivity.
    + unfold is_u32; simpl; lia.
    + lia.
    + simpl; lia.
    + vm_compute. discriminate.
Defined.

(** X15: a write whose transfer fails with 5 (EIO). *)
Lemma write_returns_the_transfer_result_witness :
  exists w',
    mblock_write mp0 (Some 1%positive) one_page 1 4096
      (world_of (lay_at 0 4096) dev_rw_fails) = Ret 5 w' /\
    w_objs w' = w_objs (world_of (lay_at 0 4096) dev_rw_fails).
Proof.
  destruct (@write_returns_the_transfer_result ref_state ref_pmd mp0
              (Some 1%positive) one_page 1 4096
              (world_of (lay_at 0 4096) dev_rw_fails) 1%positive
              (lay_at 0 4096) 5 dev_rw_fails)
    as (w' & H1 & _ & H2 & _).
  - apply resolves_intro; reflexivity.
  - reflexivity.
  - vm_compute. discriminate.
  - reflexivity.
  - vm_compute. discriminate.
  - lia.
  - reflexivity.
  - reflexivity.
  - reflexivity.
  - reflexivity.
  - exists w'. split; assumption.
Defined.

(** X16: a write of length 0 on a device that reports no optimal
    transfer size. *)
Lemma write_divides_witness :
  exists w',
    @mblock_write ref_state (alt_pmd pd_no_iosz 0) mp0 (Some 1%positive) [] 0 0
      (world_of (lay_at 0 4096) dev_ok) = Trap Divide_error w'.
Proof.
  destruct (@write_divides_by_the_optimal_size ref_state
              (alt_pmd pd_no_iosz 0) mp0 (Some 1%positive) [] 0 0
              (world_of (lay_at 0 4096) dev_ok) 1%positive (lay_at 0 4096))
    as (w' & H & _).
  - apply (@resolves_intro ref_state (alt_pmd pd_no_iosz 0)); reflexivity.
  - reflexivity.
  - exists w'. exact H.
Defined.

(** X17: two pages read from one page before the start of a committed
    mblock that holds one page. *)
Lemma read_accepts_negative_offset_witness :
  exists w',
    mblock_read (Some mp0) (Some 1%positive) one_page 2 (-4096) 8192
      (world_of (lay_at 1 4096) dev_ok) = Ret 0 w' /\
    w_calls w' = [Call_obj_rdlock 1;
                  Call_layout_rw 1 2 (2 ^ 64 + -4096) 0 MPOOL_OP_READ;
                  Call_obj_rdunlock 1] /\
    to_u32 (pmd_layout_cap_get mp0 (lay_at 1 4096)) < 2 ^ 64 + -4096.
Proof.
  apply (@read_accepts_negative_offset ref_state ref_pmd mp0 (Some 1%positive)
           one_page 2 (-4096) 8192 (world_of (lay_at 1 4096) dev_ok)
           1%positive (lay_at 1 4096)).
  - apply resolves_intro; reflexivity.
  - reflexivity.
  - unfold is_s64; lia.
  - lia.
  - reflexivity.
  - simpl; lia.
  - unfold is_u32; simpl; lia.
  - reflexivity.
  - reflexivity.
Defined.

(** X18: two pages appended one after the other to a fresh mblock. *)
Lemma appends_are_contiguous_witness :
  exists w1 w2 lay2,
    mblock_write mp0 (Some 1%positive) one_page 1 4096
      (world_of (lay_at 0 0) dev_ok) = Ret 0 w1 /\
    mblock_write mp0 (Some 1%positive) one_page 1 4096 w1 = Ret 0 w2 /\
    w_objs w2 !! 1%positive = Some lay2 /\
    eld_mblen lay2 = 0 + 4096 + 4096.
Proof.
  set (w := world_of (lay_at 0 0) dev_ok).
  set (w1 := final (mblock_write mp0 (Some 1%positive) one_page 1 4096 w)).
  set (w2 := final (mblock_write mp0 (Some 1%positive) one_page 1 4096 w1)).
  assert (mblock_write mp0 (Some 1%positive) one_page 1 4096 w = Ret 0 w1)
    as H1 by (vm_compute; reflexivity).
  assert (mblock_write mp0 (Some 1%positive) one_page 1 4096 w1 = Ret 0 w2)
    as H2 by (vm_compute; reflexivity).
  destruct (@appends_are_contiguous ref_state ref_pmd mp0 (Some 1%positive)
              one_page 1 4096 one_page 1 4096 w w1 w2 1%positive (lay_at 0 0))
    as (lay2 & _ & _ & Hl & Hm & _).
  - apply resolves_intro; reflexivity.
  - unfold is_u32; simpl; lia.
  - unfold is_u64; lia.
  - unfold is_int; lia.
  - lia.
  - unfold is_u64; lia.
  - unfold is_int; lia.
  - lia.
  - exact H1.
  - exact H2.
  - exists w1, w2, lay2. repeat split; assumption.
Defined.

(** X19: the transfer of a read of the one page of a committed mblock. *)
Lemma issued_transfers_witness :
  committed (to_u8 (eld_state (lay_at 1 4096))) = true /\
  to_u64 (0 + 4096) <= eld_mblen (lay_at 1 4096).
Proof.
  destruct (@issued_transfers_are_validated ref_state ref_pmd mp0
              (Some 1%positive) one_page 1 0 4096
              (world_of (lay_at 1 4096) dev_ok) 1%positive (lay_at 1 4096)
              1%positive 1 0 0 MPOOL_OP_READ) as (H & _).
  - apply resolves_intro; reflexivity.
  - destruct H as (_ & Hc & _ & _ & _ & _ & _ & Hend).
    + vm_compute. auto.
    + split; assumption.
Defined.

(** X20: one page appended to a fresh mblock, committed and read back. *)
Lemma appended_data_is_readable_witness :
  exists w1 w2 w3,
    mblock_write mp0 (Some 1%positive) one_page 1 4096
      (world_of (lay_at 0 0) dev_ok) = Ret 0 w1 /\
    mblock_commit mp0 (Some 1%positive) w1 = Ret 0 w2 /\
    mblock_read (Some mp0) (Some 1%positive) one_page 1 0 4096 w2 = Ret 0 w3.
Proof.
  set (w := world_of (lay_at 0 0) dev_ok).
  set (w1 := final (mblock_write mp0 (Some 1%positive) one_page 1 4096 w)).
  set (w2 := final (mblock_commit mp0 (Some 1%positive) w1)).
  assert (mblock_write mp0 (Some 1%positive) one_page 1 4096 w = Ret 0 w1)
    as H1 by (vm_compute; reflexivity).
  assert (mblock_commit mp0 (Some 1%positive) w1 = Ret 0 w2)
    as H2 by (vm_compute; reflexivity).
  destruct (@appended_data_is_readable_after_commit ref_state ref_pmd ref_laws
              mp0 (Some 1%positive) one_page 1 4096 one_page w w1 w2
              1%positive (lay_at 0 0))
    as (lay2 & w3 & _ & _ & Hrd & _).
  - apply resolves_intro; reflexivity.
  - unfold is_u32; simpl; lia.
  - unfold is_u64; lia.
  - unfold is_int; lia.
  - lia.
  - reflexivity.
  - exact H1.
  - exact H2.
  - exists w1, w2, w3. repeat split; assumption.
Defined.
